(** * aws-stress-test-app: the load generator and the utilization sampler

    A shallow embedding of [server.js] (the Express control surface with its
    three process-wide variables [stressWorkers], [isStressing] and
    [lastCpuSnapshot]) and of [stress-worker.js] (the busy loop run by every
    worker thread), followed by the properties of the two.

    JavaScript numbers are IEEE 754 binary64 values.  They are modelled by
    [spec_float] at precision 53 and maximal exponent 1024, with the rounding
    of every operation, so that [(1 - idleDiff / totalDiff) * 100] below is
    the value Node computes, bit for bit.  Each route handler and each event
    handler runs to completion on the event loop, hence is one function on
    the state. *)

From Stdlib Require Import ZArith List Bool String Lia SpecFloat.
Import ListNotations.
Open Scope Z_scope.

(** ** JavaScript numbers *)

Definition num := spec_float.

Definition prec : Z := 53.
Definition emax : Z := 1024.

Definition jadd : num -> num -> num := SFadd prec emax.
Definition jsub : num -> num -> num := SFsub prec emax.
Definition jmul : num -> num -> num := SFmul prec emax.
Definition jdiv : num -> num -> num := SFdiv prec emax.

(** [x < y] and [x <= y]: false as soon as one side is NaN. *)
Definition jlt : num -> num -> bool := SFltb.
Definition jle : num -> num -> bool := SFleb.

(** The double nearest to an integer (ties to even); exact below [2^53]. *)
Definition Z2num (z : Z) : num := binary_normalize prec emax z 0 false.

Definition num_0 : num := S754_zero false.
Definition num_1 : num := Eval vm_compute in Z2num 1.
Definition num_100 : num := Eval vm_compute in Z2num 100.
Definition num_60000 : num := Eval vm_compute in Z2num 60000.

(** [Math.min] and [Math.max] of two arguments: NaN is contagious and
    [-0] counts as smaller than [+0]. *)
Definition Math_min (x y : num) : num :=
  match SFcompare x y with
  | None => S754_nan
  | Some Lt => x
  | Some Gt => y
  | Some Eq => match y with S754_zero true => y | _ => x end
  end.

Definition Math_max (x y : num) : num :=
  match SFcompare x y with
  | None => S754_nan
  | Some Lt => y
  | Some Gt => x
  | Some Eq => match y with S754_zero false => y | _ => x end
  end.

(** [Math.round]: the integer nearest to [x], halves going up; the sign of a
    zero result is the sign of [x]. *)
Definition Math_round (x : num) : num :=
  match x with
  | S754_finite s m e =>
      if e <? 0 then
        let n := if s then Z.neg m else Z.pos m in
        let r := (2 * n + 2 ^ (- e)) / 2 ^ (1 - e) in
        if r =? 0 then S754_zero s else Z2num r
      else x
  | _ => x
  end.

(** ** JavaScript values, as far as a JSON body or a worker message holds them *)

#[local] Set Warnings "-register-all".

Inductive jsval :=
| JUndefined
| JNull
| JBool (b : bool)
| JNum (x : num)
| JStr (s : string)
| JArr (elems : list jsval)
| JObj (fields : list (string * jsval)).

(** ToBoolean: the falsy values are [undefined], [null], [false], [+0], [-0],
    NaN and the empty string. *)
Definition ToBoolean (v : jsval) : bool :=
  match v with
  | JUndefined | JNull => false
  | JBool b => b
  | JNum (S754_zero _) | JNum S754_nan => false
  | JNum _ => true
  | JStr s => negb (String.eqb s EmptyString)
  | JArr _ | JObj _ => true
  end.

(** [a || b] *)
Definition js_or (a b : jsval) : jsval := if ToBoolean a then a else b.

Fixpoint lookup_field (k : string) (fields : list (string * jsval)) : jsval :=
  match fields with
  | [] => JUndefined
  | (k', v) :: rest => if String.eqb k k' then v else lookup_field k rest
  end.

(** [body?.duration]: [undefined] unless [body] is an object that has the key. *)
Definition get_duration (body : jsval) : jsval :=
  match body with
  | JObj fields => lookup_field "duration" fields
  | _ => JUndefined
  end.

(** ** Per-core time counters *)

(** What the operating system keeps for one core: milliseconds spent in each
    mode since boot, as unsigned integers. *)
Record cpu_counters := {
  c_user : Z;
  c_nice : Z;
  c_sys : Z;
  c_idle : Z;
  c_irq : Z
}.

(** One entry of [os.cpus()], restricted to its [times] object. *)
Record times := {
  user : num;
  nice : num;
  sys : num;
  idle : num;
  irq : num
}.

Definition snapshot := list times.

(** Node turns each counter into a double. *)
Definition js_times (c : cpu_counters) : times :=
  {| user := Z2num (c_user c);
     nice := Z2num (c_nice c);
     sys := Z2num (c_sys c);
     idle := Z2num (c_idle c);
     irq := Z2num (c_irq c) |}.

Definition os_cpus (raw : list cpu_counters) : snapshot := map js_times raw.

(** ** calcCpuUsagePercent *)

Definition total (t : times) : num :=
  jadd (jadd (jadd (jadd (user t) (nice t)) (sys t)) (idle t)) (irq t).

(** The body of the [map] callback for a core that has an entry in [prev]. *)
Definition core_usage (p c : times) : num :=
  let prevTotal := total p in
  let currTotal := total c in
  let totalDiff := jsub currTotal prevTotal in
  let idleDiff := jsub (idle c) (idle p) in
  if jle totalDiff num_0 then num_0
  else
    let usage := jmul (jsub num_1 (jdiv idleDiff totalDiff)) num_100 in
    Math_max num_0 (Math_min num_100 usage).

(** [curr.map((c, i) => ...)] reading [prev[i]].  When [prev] has no entry
    at [i], [p] is [undefined] and [p.times] throws a TypeError: [None]. *)
Fixpoint calcCpuUsagePercent (prev curr : snapshot) {struct curr}
  : option (list num) :=
  match curr with
  | [] => Some []
  | c :: curr' =>
      match prev with
      | [] => None
      | p :: prev' =>
          match calcCpuUsagePercent prev' curr' with
          | Some us => Some (core_usage p c :: us)
          | None => None
          end
      end
  end.

(** ** The sampler in the words of the specification

    Deltas are taken on the integer counters; only the percentage is a
    double.  A counter is in range when it is below [2^50] milliseconds
    (some 35 000 years of uptime), which keeps every sum exact. *)

Definition counter_sum (c : cpu_counters) : Z :=
  c_user c + c_nice c + c_sys c + c_idle c + c_irq c.

Definition in_range (x : Z) : Prop := 0 <= x < 2 ^ 50.

Definition counters_ok (c : cpu_counters) : Prop :=
  in_range (c_user c) /\ in_range (c_nice c) /\ in_range (c_sys c) /\
  in_range (c_idle c) /\ in_range (c_irq c).

(** A value clamped to [[0, 100]]. *)
Definition clamp_0_100 (u : num) : num :=
  if jle u num_0 then num_0
  else if jle num_100 u then num_100
  else u.

Definition usage_percent (p c : cpu_counters) : num :=
  let totalDelta := counter_sum c - counter_sum p in
  let idleDelta := c_idle c - c_idle p in
  if totalDelta <=? 0 then num_0
  else
    clamp_0_100
      (jmul (jsub num_1 (jdiv (Z2num idleDelta) (Z2num totalDelta))) num_100).

(** A number within [[0, 100]]; NaN is not. *)
Definition percent (u : num) : Prop := jle num_0 u = true /\ jle u num_100 = true.

(** ** Auxiliary notions for the sampler's arithmetic *)

(** The divisor of the one division in the callback, when the callback gets
    as far as dividing: [None] when it returns at [if (totalDiff <= 0)]. *)
Definition divisor (p c : times) : option num :=
  let totalDiff := jsub (total c) (total p) in
  if jle totalDiff num_0 then None else Some totalDiff.

(** An integer that a double holds exactly. *)
Definition small (z : Z) : Prop := Z.abs z < 2 ^ 53.

(** The canonical double of the integer [c], of at most 53 bits, with sign
    [s]: the mantissa is [c] shifted to 53 bits. *)
Definition canon (s : bool) (c : positive) : num :=
  let d := Z.pos (digits2_pos c) in
  S754_finite s (Z.to_pos (Z.pos c * 2 ^ (53 - d))) (d - 53).

Ltac unfold_ranges :=
  unfold counters_ok, in_range, small, counter_sum in *;
  change (2 ^ 50) with 1125899906842624 in *;
  change (2 ^ 53) with 9007199254740992 in *.

(** ** The server's state *)

(** A [Worker] object, compared by identity ([w !== worker]): the number of
    [new Worker(...)] calls that came before its own. *)
Definition worker := nat.

(** The three module-level variables of [server.js], and what the runtime
    holds about worker threads: how many were constructed, the [postMessage]
    calls made to them, the [terminate()] calls, and the threads whose
    [exit] event was already delivered. *)
Record state := {
  stressWorkers : list worker;
  isStressing : bool;
  lastCpuSnapshot : snapshot;
  created : nat;
  posted : list (worker * num);
  terminated : list worker;
  exited : list worker
}.

(** Module load: [stressWorkers = []], [isStressing = false] and
    [lastCpuSnapshot = os.cpus()]. *)
Definition init (boot : snapshot) : state :=
  {| stressWorkers := [];
     isStressing := false;
     lastCpuSnapshot := boot;
     created := 0;
     posted := [];
     terminated := [];
     exited := [] |}.

Definition set_isStressing (b : bool) (st : state) : state :=
  {| stressWorkers := stressWorkers st;
     isStressing := b;
     lastCpuSnapshot := lastCpuSnapshot st;
     created := created st;
     posted := posted st;
     terminated := terminated st;
     exited := exited st |}.

Definition set_stressWorkers (ws : list worker) (st : state) : state :=
  {| stressWorkers := ws;
     isStressing := isStressing st;
     lastCpuSnapshot := lastCpuSnapshot st;
     created := created st;
     posted := posted st;
     terminated := terminated st;
     exited := exited st |}.

Definition set_lastCpuSnapshot (s : snapshot) (st : state) : state :=
  {| stressWorkers := stressWorkers st;
     isStressing := isStressing st;
     lastCpuSnapshot := s;
     created := created st;
     posted := posted st;
     terminated := terminated st;
     exited := exited st |}.

(** [w.terminate()]: asks the runtime to stop the thread; its [exit] event
    comes later, as an event of its own. *)
Definition terminate (w : worker) (st : state) : state :=
  {| stressWorkers := stressWorkers st;
     isStressing := isStressing st;
     lastCpuSnapshot := lastCpuSnapshot st;
     created := created st;
     posted := posted st;
     terminated := terminated st ++ [w];
     exited := exited st |}.

(** [stopStress()] *)
Definition stopStress (st : state) : state :=
  let st1 := fold_left (fun s w => terminate w s) (stressWorkers st) st in
  set_isStressing false (set_stressWorkers [] st1).

(** One turn of the [for] loop of [stressCPU]: [new Worker(...)], the three
    [worker.on] registrations, [stressWorkers.push(worker)] and
    [worker.postMessage({ durationMs })]. *)
Definition spawn (durationMs : num) (st : state) : state :=
  let w := created st in
  {| stressWorkers := stressWorkers st ++ [w];
     isStressing := isStressing st;
     lastCpuSnapshot := lastCpuSnapshot st;
     created := S w;
     posted := posted st ++ [(w, durationMs)];
     terminated := terminated st;
     exited := exited st |}.

Fixpoint spawn_loop (n : nat) (durationMs : num) (st : state) : state :=
  match n with
  | O => st
  | S n' => spawn_loop n' durationMs (spawn durationMs st)
  end.

(** [stressCPU(durationMs)], when [os.cpus()] has [numCPUs] entries.  The only
    caller passes a number, so the default of the parameter never applies.
    The statements are in the order of the source: the flag is raised, then
    [stopStress()] runs, then the workers are made. *)
Definition stressCPU (numCPUs : nat) (durationMs : num) (st : state) : state :=
  let st1 := set_isStressing true st in
  let st2 := stopStress st1 in
  spawn_loop numCPUs durationMs st2.

Definition get_prop (k : string) (v : jsval) : jsval :=
  match v with
  | JObj fields => lookup_field k fields
  | _ => JUndefined
  end.

(** [worker.on("message", msg => { if (msg && msg.done) worker.terminate() })] *)
Definition on_worker_message (w : worker) (msg : jsval) (st : state) : state :=
  if ToBoolean msg && ToBoolean (get_prop "done" msg) then terminate w st else st.

(** [worker.on("exit", ...)]: drop the worker from the array and lower the
    flag when the array is empty. *)
Definition on_worker_exit (w : worker) (st : state) : state :=
  let ws := filter (fun w' => negb (Nat.eqb w' w)) (stressWorkers st) in
  let st1 :=
    {| stressWorkers := ws;
       isStressing := isStressing st;
       lastCpuSnapshot := lastCpuSnapshot st;
       created := created st;
       posted := posted st;
       terminated := terminated st;
       exited := w :: exited st |} in
  if Nat.eqb (List.length ws) 0 then set_isStressing false st1 else st1.

(** [worker.on("error", ...)] only writes to the console. *)
Definition on_worker_error (w : worker) (st : state) : state := st.

(** ** The routes *)

Record stress_response := {
  success : bool;
  message : string;
  duration : option num
}.

Record metrics_response := {
  r_isStressing : bool;
  cpus : list (nat * num);
  loadAvg : list string;
  totalCPUs : nat
}.

(** [arr.map((u, i) => ({ core: i, usage: Math.round(u) }))], from index [i]. *)
Fixpoint with_core (i : nat) (us : list num) : list (nat * num) :=
  match us with
  | [] => []
  | u :: us' => (i, Math_round u) :: with_core (S i) us'
  end.

(** ** Concrete inputs

    The inputs at which the properties below are exercised. *)

(** An engine whose open conversions all answer NaN, resp. the empty
    string; none of the inputs below reaches them. *)
Definition str_nan : string -> num := fun _ => S754_nan.
Definition obj_nan : jsval -> num := fun _ => S754_nan.
Definition fixed_none : num -> string := fun _ => EmptyString.

Definition counters (u n s i q : Z) : cpu_counters :=
  {| c_user := u; c_nice := n; c_sys := s; c_idle := i; c_irq := q |}.

(** Two cores; between the two readings the first is busy 60 % of the time
    and the second does not advance at all. *)
Definition raw_before : list cpu_counters :=
  [counters 100 0 50 850 0; counters 70 0 30 900 0].
Definition raw_after : list cpu_counters :=
  [counters 600 0 150 1250 0; counters 70 0 30 900 0].

(** A campaign flagged as running, with two workers. *)
Definition flagged : state :=
  {| stressWorkers := [0%nat; 1%nat];
     isStressing := true;
     lastCpuSnapshot := [];
     created := 2;
     posted := [(0%nat, num_60000); (1%nat, num_60000)];
     terminated := [];
     exited := [] |}.

(** What [GET /metrics] answers when [raw_after] is read after
    [raw_before], with no load averages. *)
Definition two_core_response : metrics_response :=
  {| r_isStressing := false;
     cpus := [(0%nat, Z2num 60); (1%nat, num_0)];
     loadAvg := [];
     totalCPUs := 2 |}.

(** A clock that advances two milliseconds per reading, from 1000. *)
Definition clock2 (k : nat) : num := Z2num (1000 + 2 * Z.of_nat k).

Section Routes.

(** Conversions of the engine that the model leaves open: the number read
    from a string, the number an array or object converts to, and
    [toFixed(2)]. *)
Variable StringToNumber : string -> num.
Variable ObjectToNumber : jsval -> num.
Variable toFixed2 : num -> string.

(** [Number(v)] *)
Definition ToNumber (v : jsval) : num :=
  match v with
  | JUndefined => S754_nan
  | JNull => num_0
  | JBool true => num_1
  | JBool false => num_0
  | JNum x => x
  | JStr s => StringToNumber s
  | JArr _ | JObj _ => ObjectToNumber v
  end.

(** [Number(req.body?.duration || 60000)] *)
Definition request_duration (body : jsval) : num :=
  ToNumber (js_or (get_duration body) (JNum num_60000)).

(** [POST /stress] *)
Definition post_stress (numCPUs : nat) (body : jsval) (st : state)
  : state * stress_response :=
  let duration := request_duration body in
  if isStressing st then
    (st, {| success := false;
            message := "Stress test already running";
            duration := None |})
  else
    (stressCPU numCPUs duration st,
     {| success := true;
        message := "Stress test started";
        duration := Some duration |}).

(** [POST /stop-stress] *)
Definition post_stop_stress (st : state) : state * stress_response :=
  (stopStress st,
   {| success := true; message := "Stress test stopped"; duration := None |}).

(** [GET /metrics], when [os.cpus()] returns [curr] and [os.loadavg()]
    returns [load].  A TypeError inside [calcCpuUsagePercent] leaves the
    handler before the assignment: no response of the handler, same state. *)
Definition get_metrics (curr : snapshot) (load : list num) (st : state)
  : state * option metrics_response :=
  match calcCpuUsagePercent (lastCpuSnapshot st) curr with
  | None => (st, None)
  | Some usageArr =>
      let st' := set_lastCpuSnapshot curr st in
      (st', Some {| r_isStressing := isStressing st';
                    cpus := with_core 0 usageArr;
                    loadAvg := map toFixed2 load;
                    totalCPUs := List.length curr |})
  end.

(** ** The worker thread *)

(** What the thread does, in order: one [Work] for each
    [Math.sqrt(Math.random())] and [PostDone] for
    [parentPort.postMessage({ done: true })]. *)
Inductive action := Work | PostDone.

(** [Date.now() + Number(durationMs || 60000)] *)
Definition deadline (now : num) (durationMs : jsval) : num :=
  jadd now (ToNumber (js_or durationMs (JNum num_60000))).

(** [while (Date.now() < end) { Math.sqrt(Math.random()); }]: [clock k] is
    what the [k]-th call of [Date.now()] in this handler returns; the loop
    is at its call number [k].  [None] when [fuel] turns of the loop were
    not enough to leave it. *)
Fixpoint busy_loop (fuel : nat) (clock : nat -> num) (k : nat) (end_ : num)
  : option (list action) :=
  match fuel with
  | O => None
  | S fuel' =>
      if jlt (clock k) end_ then
        match busy_loop fuel' clock (S k) end_ with
        | Some acts => Some (Work :: acts)
        | None => None
        end
      else Some []
  end.

(** [parentPort.on("message", ({ durationMs }) => ...)] *)
Definition worker_on_message (fuel : nat) (clock : nat -> num) (durationMs : jsval)
  : option (list action) :=
  let end_ := deadline (clock O) durationMs in
  match busy_loop fuel clock 1%nat end_ with
  | Some acts => Some (acts ++ [PostDone])
  | None => None
  end.

(** ** Runs of the server *)

(** One event of the event loop.  A worker event is for a worker that was
    constructed, an [exit] for one that has not exited before. *)
Inductive step : state -> state -> Prop :=
| step_stress numCPUs body st :
    step st (fst (post_stress numCPUs body st))
| step_stop st :
    step st (fst (post_stop_stress st))
| step_metrics curr load st :
    step st (fst (get_metrics curr load st))
| step_message w msg st :
    (w < created st)%nat ->
    step st (on_worker_message w msg st)
| step_error w st :
    (w < created st)%nat ->
    step st (on_worker_error w st)
| step_exit w st :
    (w < created st)%nat -> ~ In w (exited st) ->
    step st (on_worker_exit w st).

Inductive reachable (boot : snapshot) : state -> Prop :=
| reach_init : reachable boot (init boot)
| reach_step st st' : reachable boot st -> step st st' -> reachable boot st'.

(** ** Sequences of events *)

(** The [exit] events of the workers [ws], delivered in that order. *)
Definition exits (ws : list worker) (st : state) : state :=
  fold_left (fun s w => on_worker_exit w s) ws st.

(** The message a worker posts when its loop is over, and its delivery for
    each worker of [ws], in that order. *)
Definition done_msg : jsval := JObj [("done"%string, JBool true)].

Definition dones (ws : list worker) (st : state) : state :=
  fold_left (fun s w => on_worker_message w done_msg s) ws st.

(** [GET /metrics] once for each snapshot of [currs], in that order, each
    time with the load averages [load]; the responses, first call first. *)
Fixpoint sample_all (currs : list snapshot) (load : list num) (st : state)
  : state * list (option metrics_response) :=
  match currs with
  | [] => (st, [])
  | curr :: currs' =>
      let '(st1, r) := get_metrics curr load st in
      let '(st2, rs) := sample_all currs' load st1 in
      (st2, r :: rs)
  end.

(** What holds of the handle set between two events: its workers are
    distinct, were constructed, and have not exited; and only constructed
    workers exit or are terminated. *)
Definition handles_ok (st : state) : Prop :=
  NoDup (stressWorkers st) /\
  (forall w, In w (stressWorkers st) ->
             (w < created st)%nat /\ ~ In w (exited st)) /\
  (forall w, In w (exited st) -> (w < created st)%nat) /\
  (forall w, In w (terminated st) -> (w < created st)%nat).

(** A clock that counts whole milliseconds: its [k]-th reading is [t k]. *)
Definition ms_clock (t : nat -> Z) : nat -> num := fun k => Z2num (t k).

(** The duration a worker runs for when it is sent the integer [z]. *)
Definition effective_ms (z : Z) : Z := if z =? 0 then 60000 else z.

(** A reading that is a number, not an infinity. *)
Definition finite_num (x : num) : bool :=
  match x with
  | S754_zero _ | S754_finite _ _ _ => true
  | _ => false
  end.

(** * Properties of the load generator *)

(** ** What [stopStress] and [stressCPU] do to each component *)

Lemma fold_terminate_fields ws st :
  let st' := fold_left (fun s w => terminate w s) ws st in
  stressWorkers st' = stressWorkers st /\
  isStressing st' = isStressing st /\
  lastCpuSnapshot st' = lastCpuSnapshot st /\
  created st' = created st /\
  posted st' = posted st /\
  terminated st' = terminated st ++ ws /\
  exited st' = exited st.
Proof.
  revert st; induction ws as [|w ws IH]; intros st; simpl.
  - rewrite app_nil_r; repeat split.
  - destruct (IH (terminate w st)) as (H1 & H2 & H3 & H4 & H5 & H6 & H7).
    simpl in *. rewrite H1, H2, H3, H4, H5, H6, H7, <- app_assoc.
    repeat split.
Qed.

Lemma stopStress_fields st :
  stressWorkers (stopStress st) = [] /\
  isStressing (stopStress st) = false /\
  lastCpuSnapshot (stopStress st) = lastCpuSnapshot st /\
  created (stopStress st) = created st /\
  posted (stopStress st) = posted st /\
  terminated (stopStress st) = terminated st ++ stressWorkers st /\
  exited (stopStress st) = exited st.
Proof.
  unfold stopStress; simpl.
  destruct (fold_terminate_fields (stressWorkers st) st)
    as (_ & _ & H3 & H4 & H5 & H6 & H7).
  repeat split; assumption.
Qed.

Lemma spawn_loop_fields n d st :
  let st' := spawn_loop n d st in
  stressWorkers st' = stressWorkers st ++ seq (created st) n /\
  isStressing st' = isStressing st /\
  lastCpuSnapshot st' = lastCpuSnapshot st /\
  created st' = (created st + n)%nat /\
  posted st' = posted st ++ map (fun w => (w, d)) (seq (created st) n) /\
  terminated st' = terminated st /\
  exited st' = exited st.
Proof.
  revert st; induction n as [|n IH]; intros st; simpl.
  - rewrite !app_nil_r, Nat.add_0_r; repeat split.
  - destruct (IH (spawn d st)) as (H1 & H2 & H3 & H4 & H5 & H6 & H7).
    simpl in *. rewrite H1, H2, H3, H4, H5, H6, H7, <- !app_assoc.
    repeat split. lia.
Qed.

Lemma stressCPU_fields n d st :
  let st' := stressCPU n d st in
  stressWorkers st' = seq (created st) n /\
  isStressing st' = false /\
  lastCpuSnapshot st' = lastCpuSnapshot st /\
  created st' = (created st + n)%nat /\
  posted st' = posted st ++ map (fun w => (w, d)) (seq (created st) n) /\
  terminated st' = terminated st ++ stressWorkers st /\
  exited st' = exited st.
Proof.
  unfold stressCPU.
  destruct (spawn_loop_fields n d (stopStress (set_isStressing true st)))
    as (H1 & H2 & H3 & H4 & H5 & H6 & H7).
  destruct (stopStress_fields (set_isStressing true st))
    as (K1 & K2 & K3 & K4 & K5 & K6 & K7).
  simpl in *.
  repeat split; congruence.
Qed.

Lemma state_eq s1 s2 :
  stressWorkers s1 = stressWorkers s2 ->
  isStressing s1 = isStressing s2 ->
  lastCpuSnapshot s1 = lastCpuSnapshot s2 ->
  created s1 = created s2 ->
  posted s1 = posted s2 ->
  terminated s1 = terminated s2 ->
  exited s1 = exited s2 ->
  s1 = s2.
Proof.
  destruct s1, s2; simpl; intros; subst; reflexivity.
Qed.

(** No handler leaves [isStressing] raised: [stressCPU] raises it and lowers
    it again through [stopStress] before it returns, and nothing else sets
    it to [true]. *)
Lemma step_flag_false st st' :
  step st st' -> isStressing st = false -> isStressing st' = false.
Proof.
  intros Hstep Hf; destruct Hstep; simpl.
  - unfold post_stress. rewrite Hf; simpl.
    apply (stressCPU_fields numCPUs _ st).
  - apply (stopStress_fields st).
  - unfold get_metrics.
    destruct (calcCpuUsagePercent (lastCpuSnapshot st) curr); simpl; assumption.
  - unfold on_worker_message.
    destruct (ToBoolean msg && ToBoolean (get_prop "done" msg)); simpl; assumption.
  - assumption.
  - unfold on_worker_exit.
    destruct (Nat.eqb _ 0); simpl; auto.
Qed.

Lemma reachable_flag_false boot st :
  reachable boot st -> isStressing st = false.
Proof.
  induction 1 as [|st st' _ IH Hstep].
  - reflexivity.
  - exact (step_flag_false _ _ Hstep IH).
Qed.

(** A second [POST /stress] during a campaign is therefore not refused: the
    running workers are terminated and replaced. *)
Lemma reachable_restart boot st numCPUs body :
  reachable boot st ->
  let '(st', r) := post_stress numCPUs body st in
  success r = true /\
  stressWorkers st' = seq (created st) numCPUs /\
  terminated st' = terminated st ++ stressWorkers st.
Proof.
  intros Hr. unfold post_stress.
  rewrite (reachable_flag_false _ _ Hr).
  destruct (stressCPU_fields numCPUs (request_duration body) st)
    as (H1 & _ & _ & _ & _ & H6 & _).
  simpl. auto.
Qed.

(** C1. The invariant "[isStressing] is true iff the handle set is non-empty"
    does not hold of the code: one [POST /stress] on a host with at least one
    core, right after start-up, reaches a state whose handle set is non-empty
    while [isStressing] is false. *)
Theorem start_breaks_flag_invariant boot numCPUs body :
  let st := fst (post_stress (S numCPUs) body (init boot)) in
  reachable boot st /\
  isStressing st = false /\
  stressWorkers st <> [].
Proof.
  simpl. split; [|split].
  - apply reach_step with (st := init boot).
    + apply reach_init.
    + apply (step_stress (S numCPUs) body (init boot)).
  - apply (stressCPU_fields (S numCPUs) (request_duration body) (init boot)).
  - destruct (stressCPU_fields (S numCPUs) (request_duration body) (init boot))
      as (H1 & _).
    change (fst (post_stress (S numCPUs) body (init boot)))
      with (stressCPU (S numCPUs) (request_duration body) (init boot)).
    rewrite H1. discriminate.
Qed.

(** C2. From any state, the idle one included, [stressCPU] leaves exactly
    [numCPUs] fresh workers in the handle set, each of them sent the
    duration, but [isStressing] false: the flag does not end up true, as
    the specification of Start requires it to. *)
Theorem stressCPU_spawns_but_flag_false numCPUs durationMs st :
  let st' := stressCPU numCPUs durationMs st in
  List.length (stressWorkers st') = numCPUs /\
  stressWorkers st' = seq (created st) numCPUs /\
  posted st' =
    posted st ++ map (fun w => (w, durationMs)) (seq (created st) numCPUs) /\
  isStressing st' = false.
Proof.
  destruct (stressCPU_fields numCPUs durationMs st)
    as (H1 & H2 & _ & _ & H5 & _).
  simpl in *. rewrite H1, length_seq. auto.
Qed.

(** C3 (amended). No [POST /stress] is refused for its duration.  While
    [isStressing] is false the handler calls [stressCPU] with
    [Number(duration || 60000)] and answers [success: true], and [numCPUs]
    workers are spawned; a missing, zero or otherwise falsy duration becomes
    60000 and a negative number is passed on as it is. *)
Theorem no_duration_validation numCPUs body st :
  isStressing st = false ->
  post_stress numCPUs body st =
    (stressCPU numCPUs (request_duration body) st,
     {| success := true;
        message := "Stress test started";
        duration := Some (request_duration body) |}) /\
  stressWorkers (fst (post_stress numCPUs body st)) = seq (created st) numCPUs /\
  (ToBoolean (get_duration body) = false -> request_duration body = num_60000) /\
  (forall x, get_duration body = JNum x -> jlt x num_0 = true ->
             request_duration body = x).
Proof.
  intros Hf. unfold post_stress. rewrite Hf. simpl.
  split; [reflexivity|]. split.
  - apply (stressCPU_fields numCPUs (request_duration body) st).
  - unfold request_duration, js_or. split.
    + intros ->. reflexivity.
    + intros x -> Hx.
      destruct x as [s|s| |s m e]; try discriminate Hx; reflexivity.
Qed.

(** The branch behind [if (isStressing)]: were the flag up, [POST /stress]
    would answer [success: false] with "Stress test already running" and
    change nothing.  No run gets there, since the flag is down in every
    state a run passes through ([reachable_flag_false]). *)
Lemma start_rejected_while_stressing numCPUs body st :
  isStressing st = true ->
  post_stress numCPUs body st =
    (st, {| success := false;
            message := "Stress test already running";
            duration := None |}).
Proof.
  intros Hf. unfold post_stress. rewrite Hf. reflexivity.
Qed.

(** C4. A [POST /stress] that arrives while a campaign is running is not
    refused.  After a first start on a host with at least one core the
    handle set holds that start's workers; a second [POST /stress] is then
    answered [success: true] with "Stress test started", calls
    [terminate()] on every worker of the first start and leaves a second
    set of workers in the handle set. *)
Theorem start_during_campaign_not_rejected boot n1 body1 n2 body2 :
  let st1 := fst (post_stress (S n1) body1 (init boot)) in
  let st2 := fst (post_stress n2 body2 st1) in
  let r2 := snd (post_stress n2 body2 st1) in
  reachable boot st1 /\
  stressWorkers st1 = seq 0 (S n1) /\
  r2 = {| success := true;
          message := "Stress test started";
          duration := Some (request_duration body2) |} /\
  terminated st2 = seq 0 (S n1) /\
  stressWorkers st2 = seq (S n1) n2.
Proof.
  intros st1 st2 r2.
  assert (Hr1 : reachable boot st1).
  { apply reach_step with (st := init boot);
      [apply reach_init | apply (step_stress (S n1) body1 (init boot))]. }
  assert (Hf1 := reachable_flag_false boot st1 Hr1).
  assert (E1 : st1 = stressCPU (S n1) (request_duration body1) (init boot))
    by reflexivity.
  destruct (stressCPU_fields (S n1) (request_duration body1) (init boot))
    as (H1 & _ & _ & H4 & _ & H6 & _).
  rewrite <- E1 in H1, H4, H6. cbn [init created terminated stressWorkers] in *.
  destruct (stressCPU_fields n2 (request_duration body2) st1)
    as (K1 & _ & _ & _ & _ & K6 & _).
  unfold st2, r2, post_stress. rewrite Hf1. cbn [fst snd].
  split; [exact Hr1|]. split; [exact H1|]. split; [reflexivity|]. split.
  - rewrite K6, H6, H1. reflexivity.
  - rewrite K1, H4. reflexivity.
Qed.

(** C8. [POST /stop-stress] calls [terminate()] on every worker of the handle
    set, in order, leaves the handle set empty and [isStressing] false, and
    answers [success: true]; in the idle state it changes nothing. *)
Theorem stop_clears_everything st :
  let '(st', r) := post_stop_stress st in
  terminated st' = terminated st ++ stressWorkers st /\
  stressWorkers st' = [] /\
  isStressing st' = false /\
  success r = true /\
  (stressWorkers st = [] -> isStressing st = false -> st' = st).
Proof.
  destruct (stopStress_fields st) as (H1 & H2 & H3 & H4 & H5 & H6 & H7).
  simpl. repeat split; try assumption.
  intros Hw Hf. apply state_eq; try congruence.
  rewrite H6, Hw. apply app_nil_r.
Qed.

(** C10. A falsy duration (absent, [null], [false], [0], [-0], NaN or the
    empty string) starts the campaign with 60000 ms when no campaign is
    flagged, and a worker that receives a falsy [durationMs] takes 60000 ms
    as well. *)
Theorem default_duration_60000 numCPUs body st now durationMs :
  ToBoolean (get_duration body) = false ->
  isStressing st = false ->
  ToBoolean durationMs = false ->
  post_stress numCPUs body st =
    (stressCPU numCPUs num_60000 st,
     {| success := true;
        message := "Stress test started";
        duration := Some num_60000 |}) /\
  posted (stressCPU numCPUs num_60000 st) =
    posted st ++ map (fun w => (w, num_60000)) (seq (created st) numCPUs) /\
  deadline now durationMs = jadd now num_60000.
Proof.
  intros Hb Hf Hd. unfold post_stress, request_duration, deadline, js_or.
  rewrite Hb, Hf, Hd. simpl. repeat split.
  apply (stressCPU_fields numCPUs num_60000 st).
Qed.

Lemma falsy_durations :
  ToBoolean (get_duration JUndefined) = false /\
  ToBoolean (get_duration (JObj [])) = false /\
  ToBoolean (get_duration (JObj [("duration"%string, JNull)])) = false /\
  ToBoolean (get_duration (JObj [("duration"%string, JNum num_0)])) = false /\
  ToBoolean (get_duration (JObj [("duration"%string, JStr "")])) = false.
Proof. repeat split. Qed.

(** ** The sampler's stored snapshot *)

Lemma calc_total prev curr :
  (List.length curr <= List.length prev)%nat ->
  exists us, calcCpuUsagePercent prev curr = Some us /\
             List.length us = List.length curr.
Proof.
  revert prev; induction curr as [|c curr IH]; intros prev Hlen; simpl.
  - exists []; split; reflexivity.
  - destruct prev as [|p prev]; simpl in Hlen; [lia|].
    destruct (IH prev) as (us & -> & Hl); [lia|].
    exists (core_usage p c :: us); simpl; split; congruence.
Qed.

(** C7. The snapshot taken at module load is the first baseline.  Each
    [GET /metrics] computes the usage from the stored snapshot and the fresh
    one, then stores the fresh one: the second of two calls in a row reports
    the usage between the first call's snapshot and its own, whatever was
    stored before.  (The snapshots are of the same host: a later one has no
    more cores than an earlier one.) *)
Theorem sample_replaces_previous boot st curr1 load1 curr2 load2 :
  (List.length curr1 <= List.length (lastCpuSnapshot st))%nat ->
  (List.length curr2 <= List.length curr1)%nat ->
  lastCpuSnapshot (init boot) = boot /\
  exists us1 us2,
    calcCpuUsagePercent (lastCpuSnapshot st) curr1 = Some us1 /\
    calcCpuUsagePercent curr1 curr2 = Some us2 /\
    let st1 := fst (get_metrics curr1 load1 st) in
    let r1 := snd (get_metrics curr1 load1 st) in
    let st2 := fst (get_metrics curr2 load2 st1) in
    let r2 := snd (get_metrics curr2 load2 st1) in
    st1 = set_lastCpuSnapshot curr1 st /\
    option_map cpus r1 = Some (with_core 0 us1) /\
    st2 = set_lastCpuSnapshot curr2 st1 /\
    lastCpuSnapshot st2 = curr2 /\
    option_map cpus r2 = Some (with_core 0 us2).
Proof.
  intros H1 H2. split; [reflexivity|].
  destruct (calc_total _ _ H1) as (us1 & E1 & _).
  destruct (calc_total _ _ H2) as (us2 & E2 & _).
  exists us1, us2. split; [assumption|]. split; [assumption|].
  unfold get_metrics. rewrite E1. simpl. rewrite E2. simpl.
  repeat split.
Qed.

(** ** The worker's loop *)

Lemma busy_loop_runs clock end_ n :
  forall fuel k,
    (forall j, (k <= j < k + n)%nat -> jlt (clock j) end_ = true) ->
    jlt (clock (k + n)%nat) end_ = false ->
    (n < fuel)%nat ->
    busy_loop fuel clock k end_ = Some (repeat Work n).
Proof.
  induction n as [|n IH]; intros fuel k Hbefore Hat Hfuel;
    (destruct fuel as [|fuel]; [lia|]); simpl.
  - rewrite Nat.add_0_r in Hat. rewrite Hat. reflexivity.
  - rewrite (Hbefore k) by lia.
    rewrite (IH fuel (S k)).
    + reflexivity.
    + intros j Hj. apply Hbefore. lia.
    + replace (S k + n)%nat with (k + S n)%nat by lia. assumption.
    + lia.
Qed.

Lemma positive_is_truthy d : jlt num_0 d = true -> ToBoolean (JNum d) = true.
Proof.
  destruct d as [s| | |s m e]; simpl; try reflexivity; discriminate.
Qed.

(** C9. With a positive [durationMs] the deadline is the first clock reading
    plus [durationMs].  If the readings of [Date.now()] stay below the
    deadline for [n] tests of the loop and the next one does not, the worker
    does [n] rounds of [Math.sqrt(Math.random())], nothing else in between,
    leaves the loop and posts [{ done: true }]. *)
Theorem worker_spins_until_deadline clock d n fuel :
  jlt num_0 d = true ->
  let end_ := jadd (clock O) d in
  (forall j, (1 <= j <= n)%nat -> jlt (clock j) end_ = true) ->
  jlt (clock (S n)) end_ = false ->
  (n < fuel)%nat ->
  deadline (clock O) (JNum d) = end_ /\
  worker_on_message fuel clock (JNum d) = Some (repeat Work n ++ [PostDone]).
Proof.
  intros Hpos end_ Hbefore Hat Hfuel.
  assert (Hend : deadline (clock O) (JNum d) = end_).
  { unfold deadline, js_or. rewrite (positive_is_truthy _ Hpos). reflexivity. }
  split; [assumption|].
  unfold worker_on_message. rewrite Hend.
  rewrite (busy_loop_runs clock end_ n fuel 1%nat).
  - reflexivity.
  - intros j Hj. apply Hbefore. lia.
  - assumption.
  - assumption.
Qed.

End Routes.

(** * Properties of the sampler *)

(** ** Integers below [2^53] in binary64 *)

Lemma digits2_pos_log2 p : Z.pos (digits2_pos p) = Z.log2 (Z.pos p) + 1.
Proof.
  induction p as [p IH|p IH|]; simpl; try reflexivity.
  - rewrite Pos2Z.inj_succ, IH. destruct p; simpl; lia.
  - rewrite Pos2Z.inj_succ, IH. destruct p; simpl; lia.
Qed.

Lemma digits2_pos_shift c M k :
  0 <= k -> Z.pos M = Z.pos c * 2 ^ k ->
  Z.pos (digits2_pos M) = Z.pos (digits2_pos c) + k.
Proof.
  intros Hk HM. rewrite !digits2_pos_log2, HM, Z.log2_mul_pow2; lia.
Qed.

Lemma digits2_pos_le c n :
  0 <= n -> Z.pos c < 2 ^ n -> Z.pos (digits2_pos c) <= n.
Proof.
  intros Hn Hc. rewrite digits2_pos_log2.
  assert (Z.log2 (Z.pos c) < n) by (apply Z.log2_lt_pow2; lia). lia.
Qed.

Lemma iter_pos_nat {A} (f : A -> A) p :
  forall x, iter_pos f p x = Nat.iter (Pos.to_nat p) f x.
Proof.
  induction p as [p IH|p IH|]; intros x; cbn [iter_pos].
  - rewrite !IH, Pos2Nat.inj_xI.
    replace (S (2 * Pos.to_nat p)) with (Pos.to_nat p + S (Pos.to_nat p))%nat by lia.
    rewrite Nat.iter_add, Nat.iter_succ_r. reflexivity.
  - rewrite !IH, Pos2Nat.inj_xO.
    replace (2 * Pos.to_nat p)%nat with (Pos.to_nat p + Pos.to_nat p)%nat by lia.
    rewrite Nat.iter_add. reflexivity.
  - reflexivity.
Qed.

Lemma pos_iter_nat {A} (f : A -> A) p x :
  Pos.iter f x p = Nat.iter (Pos.to_nat p) f x.
Proof.
  induction p as [|p IH] using Pos.peano_ind.
  - reflexivity.
  - rewrite Pos.iter_succ, IH, Pos2Nat.inj_succ. reflexivity.
Qed.

Lemma nat_iter_xO n c : Z.pos (Nat.iter n xO c) = Z.pos c * 2 ^ Z.of_nat n.
Proof.
  induction n as [|n IH].
  - simpl. lia.
  - rewrite Nat.iter_succ, Pos2Z.inj_xO, IH, Nat2Z.inj_succ, Z.pow_succ_r; lia.
Qed.

Lemma nat_iter_shr_1 n c :
  Nat.iter n shr_1 (Build_shr_record (Z.pos (Nat.iter n xO c)) false false)
  = Build_shr_record (Z.pos c) false false.
Proof.
  induction n as [|n IH].
  - reflexivity.
  - rewrite Nat.iter_succ_r. simpl. exact IH.
Qed.

(** Shifting right an exact multiple of a power of two loses nothing. *)
Lemma shr_exact M C p :
  Z.pos M = Z.pos C * 2 ^ Z.pos p ->
  iter_pos shr_1 p (Build_shr_record (Z.pos M) false false)
  = Build_shr_record (Z.pos C) false false.
Proof.
  intros HM. rewrite iter_pos_nat.
  assert (M = Nat.iter (Pos.to_nat p) xO C) as ->.
  { apply Pos2Z.inj. rewrite nat_iter_xO, positive_nat_Z. exact HM. }
  apply nat_iter_shr_1.
Qed.

Lemma shl_exact M q : Z.pos (Pos.iter xO M q) = Z.pos M * 2 ^ Z.pos q.
Proof.
  rewrite pos_iter_nat, nat_iter_xO, positive_nat_Z. reflexivity.
Qed.

Lemma fexp_small d : 1 <= d <= 53 -> fexp prec emax d = d - 53.
Proof. unfold fexp, emin, prec, emax. lia. Qed.

Lemma digits2_pos_pos c : 1 <= Z.pos (digits2_pos c).
Proof. lia. Qed.

Lemma canon_mantissa c :
  Z.pos (digits2_pos c) <= 53 ->
  Z.pos (Z.to_pos (Z.pos c * 2 ^ (53 - Z.pos (digits2_pos c))))
  = Z.pos c * 2 ^ (53 - Z.pos (digits2_pos c)).
Proof.
  intros Hd. apply Z2Pos.id.
  apply Z.mul_pos_pos; [lia|]. apply Z.pow_pos_nonneg; lia.
Qed.

Lemma shr_fexp_exact c M e :
  Z.pos (digits2_pos c) <= 53 ->
  e <= Z.pos (digits2_pos c) - 53 ->
  Z.pos M = Z.pos c * 2 ^ (- e) ->
  shr_fexp prec emax (Z.pos M) e loc_Exact
  = (Build_shr_record
       (Z.pos (Z.to_pos (Z.pos c * 2 ^ (53 - Z.pos (digits2_pos c))))) false false,
     Z.pos (digits2_pos c) - 53).
Proof.
  intros Hd He HM. unfold shr_fexp. cbn [Zdigits2 shr_record_of_loc].
  rewrite (digits2_pos_shift c M (- e)) by lia.
  assert (HC := canon_mantissa c Hd).
  set (d := Z.pos (digits2_pos c)) in *.
  replace (d + - e + e) with d by lia.
  rewrite fexp_small by (unfold d; lia).
  unfold shr. destruct (d - 53 - e) as [|p|p] eqn:Hn.
  - assert (E : Z.to_pos (Z.pos c * 2 ^ (53 - d)) = M).
    { apply Pos2Z.inj. rewrite HC, HM. f_equal. f_equal. lia. }
    rewrite E. f_equal. lia.
  - rewrite (shr_exact M (Z.to_pos (Z.pos c * 2 ^ (53 - d))) p).
    + f_equal. lia.
    + rewrite HC, HM, <- Z.mul_assoc, <- Z.pow_add_r by lia.
      f_equal. f_equal. lia.
  - lia.
Qed.

Lemma binary_round_aux_exact s c M e :
  Z.pos (digits2_pos c) <= 53 ->
  e <= Z.pos (digits2_pos c) - 53 ->
  Z.pos M = Z.pos c * 2 ^ (- e) ->
  binary_round_aux prec emax s (Z.pos M) e loc_Exact = canon s c.
Proof.
  intros Hd He HM. unfold binary_round_aux.
  rewrite (shr_fexp_exact c M e Hd He HM).
  cbn [shr_m loc_of_shr_record round_nearest_even].
  rewrite (shr_fexp_exact c _ (Z.pos (digits2_pos c) - 53) Hd).
  - cbn [shr_m]. unfold canon.
    replace (Z.pos (digits2_pos c) - 53 <=? emax - prec) with true;
      [reflexivity|].
    symmetry. apply Z.leb_le. unfold emax, prec. lia.
  - lia.
  - rewrite canon_mantissa by exact Hd. f_equal. f_equal. lia.
Qed.

(** Rounding [c * 2^k] at exponent [-k] gives the canonical double of [c]. *)
Lemma binary_round_exact s c M k :
  Z.pos (digits2_pos c) <= 53 -> 0 <= k -> Z.pos M = Z.pos c * 2 ^ k ->
  binary_round prec emax s M (- k) = canon s c.
Proof.
  intros Hd Hk HM. unfold binary_round.
  rewrite (digits2_pos_shift c M k Hk HM).
  replace (Z.pos (digits2_pos c) + k + - k) with (Z.pos (digits2_pos c)) by lia.
  rewrite fexp_small by lia.
  unfold shl_align.
  destruct (Z.pos (digits2_pos c) - 53 - - k) as [|p|p] eqn:Hn.
  - apply binary_round_aux_exact; [exact Hd|lia|].
    rewrite HM. f_equal. f_equal. lia.
  - apply binary_round_aux_exact; [exact Hd|lia|].
    rewrite HM. f_equal. f_equal. lia.
  - apply binary_round_aux_exact; [exact Hd|lia|].
    rewrite shl_exact, HM, <- Z.mul_assoc, <- Z.pow_add_r by lia.
    f_equal. f_equal. lia.
Qed.

Lemma Z2num_canon z :
  small z ->
  Z2num z = match z with
            | Z0 => S754_zero false
            | Z.pos c => canon false c
            | Z.neg c => canon true c
            end.
Proof.
  intros Hz. unfold Z2num, binary_normalize. destruct z as [|c|c].
  - reflexivity.
  - apply (binary_round_exact false c c 0);
      [apply digits2_pos_le; unfold small in Hz; lia | lia | lia].
  - apply (binary_round_exact true c c 0);
      [apply digits2_pos_le; unfold small in Hz; lia | lia | lia].
Qed.

(** The key fact: normalising [z * 2^k] at exponent [-k] is converting [z]. *)
Lemma normalize_scaled z k :
  small z -> 0 <= k ->
  binary_normalize prec emax (z * 2 ^ k) (- k) false = Z2num z.
Proof.
  intros Hz Hk. rewrite (Z2num_canon z Hz).
  assert (Hp : 0 < 2 ^ k) by (apply Z.pow_pos_nonneg; lia).
  unfold binary_normalize. destruct z as [|c|c].
  - reflexivity.
  - destruct (Z.pos c * 2 ^ k) as [|M|M] eqn:HM; try lia.
    apply binary_round_exact; [apply digits2_pos_le; unfold small in Hz; lia|lia|].
    lia.
  - destruct (Z.neg c * 2 ^ k) as [|M|M] eqn:HM; try lia.
    apply binary_round_exact; [apply digits2_pos_le; unfold small in Hz; lia|lia|].
    lia.
Qed.

Lemma shl_align_value M e ez :
  ez <= e -> Z.pos (fst (shl_align M e ez)) = Z.pos M * 2 ^ (e - ez).
Proof.
  intros He. unfold shl_align. destruct (ez - e) as [|q|q] eqn:Hq; cbn [fst].
  - replace (e - ez) with 0 by lia. lia.
  - lia.
  - rewrite shl_exact. f_equal. f_equal. lia.
Qed.

(** The mantissa of [canon s c], aligned to a lower exponent [ez], is
    [c * 2^(-ez)]. *)
Lemma canon_aligned c ez :
  Z.pos (digits2_pos c) <= 53 ->
  ez <= Z.pos (digits2_pos c) - 53 ->
  Z.pos (fst (shl_align (Z.to_pos (Z.pos c * 2 ^ (53 - Z.pos (digits2_pos c))))
                        (Z.pos (digits2_pos c) - 53) ez))
  = Z.pos c * 2 ^ (- ez).
Proof.
  intros Hd He. rewrite shl_align_value by exact He.
  rewrite canon_mantissa by exact Hd.
  rewrite <- Z.mul_assoc, <- Z.pow_add_r by lia.
  f_equal. f_equal. lia.
Qed.

Lemma cond_Zopp_mul s x y : cond_Zopp s (x * y) = cond_Zopp s x * y.
Proof. destruct s; simpl; lia. Qed.

Lemma add_canon sa ca sb cb :
  Z.pos (digits2_pos ca) <= 53 -> Z.pos (digits2_pos cb) <= 53 ->
  small (cond_Zopp sa (Z.pos ca) + cond_Zopp sb (Z.pos cb)) ->
  jadd (canon sa ca) (canon sb cb)
  = Z2num (cond_Zopp sa (Z.pos ca) + cond_Zopp sb (Z.pos cb)).
Proof.
  intros Ha Hb Hs. unfold jadd, canon, SFadd.
  set (ez := Z.min (Z.pos (digits2_pos ca) - 53) (Z.pos (digits2_pos cb) - 53)).
  rewrite (canon_aligned ca ez Ha) by (unfold ez; lia).
  rewrite (canon_aligned cb ez Hb) by (unfold ez; lia).
  rewrite !cond_Zopp_mul, <- Z.mul_add_distr_r.
  assert (H := normalize_scaled _ (- ez) Hs).
  rewrite Z.opp_involutive in H. apply H. unfold ez; lia.
Qed.

Lemma sub_canon sa ca sb cb :
  Z.pos (digits2_pos ca) <= 53 -> Z.pos (digits2_pos cb) <= 53 ->
  small (cond_Zopp sa (Z.pos ca) - cond_Zopp sb (Z.pos cb)) ->
  jsub (canon sa ca) (canon sb cb)
  = Z2num (cond_Zopp sa (Z.pos ca) - cond_Zopp sb (Z.pos cb)).
Proof.
  intros Ha Hb Hs. unfold jsub, canon, SFsub.
  set (ez := Z.min (Z.pos (digits2_pos ca) - 53) (Z.pos (digits2_pos cb) - 53)).
  rewrite (canon_aligned ca ez Ha) by (unfold ez; lia).
  rewrite (canon_aligned cb ez Hb) by (unfold ez; lia).
  rewrite !cond_Zopp_mul, <- Z.mul_sub_distr_r.
  assert (H := normalize_scaled _ (- ez) Hs).
  rewrite Z.opp_involutive in H. apply H. unfold ez; lia.
Qed.

Lemma small_digits c : small (Z.pos c) -> Z.pos (digits2_pos c) <= 53.
Proof. intros H. apply digits2_pos_le; unfold small in H; lia. Qed.

Lemma small_digits_neg c : small (Z.neg c) -> Z.pos (digits2_pos c) <= 53.
Proof. intros H. apply digits2_pos_le; unfold small in H; lia. Qed.

(** Sums and differences of integers that stay below [2^53] are exact. *)
Lemma jadd_exact a b :
  small a -> small b -> small (a + b) ->
  jadd (Z2num a) (Z2num b) = Z2num (a + b).
Proof.
  intros Ha Hb Hs.
  rewrite (Z2num_canon a Ha), (Z2num_canon b Hb).
  destruct a as [|ca|ca], b as [|cb|cb];
    try reflexivity;
    try (rewrite (Z2num_canon _ Hs); reflexivity).
  - apply (add_canon false ca false cb);
      [apply small_digits|apply small_digits|]; assumption.
  - apply (add_canon false ca true cb);
      [apply small_digits|apply small_digits_neg|]; assumption.
  - apply (add_canon true ca false cb);
      [apply small_digits_neg|apply small_digits|]; assumption.
  - apply (add_canon true ca true cb);
      [apply small_digits_neg|apply small_digits_neg|]; assumption.
Qed.

Lemma jsub_exact a b :
  small a -> small b -> small (a - b) ->
  jsub (Z2num a) (Z2num b) = Z2num (a - b).
Proof.
  intros Ha Hb Hs.
  rewrite (Z2num_canon a Ha), (Z2num_canon b Hb).
  destruct a as [|ca|ca], b as [|cb|cb];
    try reflexivity;
    try (rewrite (Z2num_canon _ Hs); reflexivity).
  - apply (sub_canon false ca false cb);
      [apply small_digits|apply small_digits|]; assumption.
  - apply (sub_canon false ca true cb);
      [apply small_digits|apply small_digits_neg|]; assumption.
  - apply (sub_canon true ca false cb);
      [apply small_digits_neg|apply small_digits|]; assumption.
  - apply (sub_canon true ca true cb);
      [apply small_digits_neg|apply small_digits_neg|]; assumption.
Qed.

Lemma jle_Z2num_0 z : small z -> jle (Z2num z) num_0 = (z <=? 0).
Proof.
  intros Hz. rewrite (Z2num_canon z Hz). destruct z; reflexivity.
Qed.

(** ** Rounding never makes a NaN *)

Lemma shr_1_nonneg r : 0 <= shr_m r -> 0 <= shr_m (shr_1 r).
Proof.
  destruct r as [m r s]; simpl. intros Hm.
  destruct m as [|[p|p|]|p]; simpl; lia.
Qed.

Lemma nat_iter_shr_1_nonneg n r :
  0 <= shr_m r -> 0 <= shr_m (Nat.iter n shr_1 r).
Proof.
  intros Hr. induction n as [|n IH]; [exact Hr|].
  rewrite Nat.iter_succ. apply shr_1_nonneg, IH.
Qed.

Lemma shr_fexp_nonneg m e l :
  0 <= m -> 0 <= shr_m (fst (shr_fexp prec emax m e l)).
Proof.
  intros Hm. unfold shr_fexp, shr.
  assert (H0 : 0 <= shr_m (shr_record_of_loc m l)).
  { destruct l as [|[| |]]; exact Hm. }
  destruct (fexp prec emax (Zdigits2 m + e) - e) as [|p|p]; cbn [fst];
    try exact H0.
  rewrite iter_pos_nat. apply nat_iter_shr_1_nonneg, H0.
Qed.

Lemma round_nearest_even_nonneg m l : 0 <= m -> 0 <= round_nearest_even m l.
Proof.
  intros Hm. unfold round_nearest_even.
  destruct l as [|[| |]]; try destruct (Z.even m); lia.
Qed.

Lemma binary_round_aux_not_nan s m e l :
  0 <= m -> binary_round_aux prec emax s m e l <> S754_nan.
Proof.
  intros Hm. unfold binary_round_aux.
  assert (H1 := shr_fexp_nonneg m e l Hm).
  destruct (shr_fexp prec emax m e l) as [mrs' e']. cbn [fst] in H1.
  assert (H2 := shr_fexp_nonneg
                  (round_nearest_even (shr_m mrs') (loc_of_shr_record mrs'))
                  e' loc_Exact (round_nearest_even_nonneg _ _ H1)).
  destruct (shr_fexp prec emax _ e' loc_Exact) as [mrs'' e'']. cbn [fst] in H2.
  destruct (shr_m mrs'') as [|p|p].
  - discriminate.
  - destruct (e'' <=? emax - prec); discriminate.
  - lia.
Qed.

Lemma binary_normalize_not_nan m e : binary_normalize prec emax m e false <> S754_nan.
Proof.
  unfold binary_normalize, binary_round.
  destruct m as [|p|p]; [discriminate| |];
    destruct (shl_align _ _ _) as [mz ez];
    apply binary_round_aux_not_nan; lia.
Qed.

(** A finite divisor, other than zero, and a dividend that is a number:
    the quotient is a number. *)
Lemma jdiv_not_nan x s m e :
  x <> S754_nan -> jdiv x (S754_finite s m e) <> S754_nan.
Proof.
  intros Hx. unfold jdiv, SFdiv.
  destruct x as [sx|sx| |sx mx ex]; try discriminate; try congruence.
  unfold SFdiv_core_binary.
  set (m' := match _ - _ - _ with Z.pos _ => _ | 0 => _ | Z.neg _ => _ end).
  assert (Hm' : 0 <= m').
  { unfold m'. destruct (_ - _ - _); try lia. apply Z.shiftl_nonneg. lia. }
  assert (Hq := Z.div_pos m' (Z.pos m) Hm' ltac:(lia)).
  unfold Z.div in Hq.
  destruct (Z.div_eucl m' (Z.pos m)) as [q r]. cbn [fst] in Hq.
  apply binary_round_aux_not_nan. exact Hq.
Qed.

Lemma jsub_1_not_nan q : q <> S754_nan -> jsub num_1 q <> S754_nan.
Proof.
  intros Hq. unfold jsub, num_1, SFsub.
  destruct q as [s|s| |s m e]; try discriminate; try congruence.
  apply binary_normalize_not_nan.
Qed.

Lemma jmul_100_not_nan x : x <> S754_nan -> jmul x num_100 <> S754_nan.
Proof.
  intros Hx. unfold jmul, num_100, SFmul.
  destruct x as [s|s| |s m e]; try discriminate; try congruence.
  apply binary_round_aux_not_nan. lia.
Qed.

(** ** Clamping *)

Lemma SFcompare_antisym x y :
  SFcompare y x = option_map CompOpp (SFcompare x y).
Proof.
  destruct x as [sx|sx| |sx mx ex], y as [sy|sy| |sy my ey];
    try reflexivity;
    try (destruct sx; reflexivity);
    try (destruct sy; reflexivity);
    try (destruct sx, sy; reflexivity).
  cbn [SFcompare option_map]. f_equal.
  rewrite (Z.compare_antisym ey ex).
  destruct sx, sy; try reflexivity;
    destruct (ey ?= ex); cbn [CompOpp]; try reflexivity;
    rewrite (Pos.compare_cont_antisym mx my Eq); cbn [CompOpp];
    try reflexivity.
Qed.

(** [Math.max(0, Math.min(100, u))] is the clamp of the specification, NaN
    and the two zeros included. *)
Lemma max_min_is_clamp u :
  Math_max num_0 (Math_min num_100 u) = clamp_0_100 u.
Proof.
  unfold clamp_0_100, Math_min, jle, SFleb.
  destruct u as [s|s| |s m e].
  - destruct s; reflexivity.
  - destruct s; reflexivity.
  - reflexivity.
  - destruct s; [reflexivity|].
    replace (SFcompare (S754_finite false m e) num_0) with (Some Gt)
      by reflexivity.
    destruct (SFcompare num_100 (S754_finite false m e)) as [[| |]|] eqn:E;
      try reflexivity.
    discriminate E.
Qed.

Lemma percent_clamp u : u <> S754_nan -> percent (clamp_0_100 u).
Proof.
  intros Hu. unfold clamp_0_100.
  destruct (jle u num_0) eqn:E0; [split; reflexivity|].
  destruct (jle num_100 u) eqn:E1; [split; reflexivity|].
  unfold percent, jle, SFleb in *.
  rewrite (SFcompare_antisym u num_0).
  rewrite (SFcompare_antisym num_100 u).
  destruct (SFcompare u num_0) as [[| |]|] eqn:C0; try discriminate E0.
  - destruct (SFcompare num_100 u) as [[| |]|] eqn:C1; try discriminate E1.
    + split; reflexivity.
    + destruct u; try congruence; discriminate C1.
  - destruct u; try congruence; discriminate C0.
Qed.

(** ** [calcCpuUsagePercent] against the specification *)

Lemma core_usage_by_divisor p c :
  core_usage p c =
  match divisor p c with
  | None => num_0
  | Some totalDiff =>
      Math_max num_0
        (Math_min num_100
           (jmul (jsub num_1 (jdiv (jsub (idle c) (idle p)) totalDiff)) num_100))
  end.
Proof.
  unfold core_usage, divisor.
  destruct (jle (jsub (total c) (total p)) num_0); reflexivity.
Qed.

(** The sum of the five doubles is the double of the sum of the counters. *)
Lemma total_exact c :
  counters_ok c -> total (js_times c) = Z2num (counter_sum c).
Proof.
  intros Hc. unfold total, js_times; cbn [user nice sys idle irq].
  rewrite !jadd_exact; try reflexivity; unfold_ranges; lia.
Qed.

Lemma totalDiff_exact p c :
  counters_ok p -> counters_ok c ->
  jsub (total (js_times c)) (total (js_times p))
  = Z2num (counter_sum c - counter_sum p).
Proof.
  intros Hp Hc. rewrite !total_exact by assumption.
  apply jsub_exact; unfold_ranges; lia.
Qed.

Lemma idleDiff_exact p c :
  counters_ok p -> counters_ok c ->
  jsub (idle (js_times c)) (idle (js_times p)) = Z2num (c_idle c - c_idle p).
Proof.
  intros Hp Hc. cbn [js_times idle].
  apply jsub_exact; unfold_ranges; lia.
Qed.

Lemma core_usage_exact p c :
  counters_ok p -> counters_ok c ->
  core_usage (js_times p) (js_times c) = usage_percent p c.
Proof.
  intros Hp Hc. unfold core_usage, usage_percent.
  rewrite totalDiff_exact, idleDiff_exact by assumption.
  rewrite jle_Z2num_0 by (unfold_ranges; lia).
  destruct (counter_sum c - counter_sum p <=? 0); [reflexivity|].
  apply max_min_is_clamp.
Qed.

Lemma Z2num_positive z :
  0 < z -> small z -> exists m e, Z2num z = S754_finite false m e.
Proof.
  intros Hpos Hz. rewrite (Z2num_canon z Hz).
  destruct z as [|c|c]; try lia. unfold canon. eauto.
Qed.

Lemma usage_percent_in_range p c :
  counters_ok p -> counters_ok c -> percent (usage_percent p c).
Proof.
  intros Hp Hc. unfold usage_percent.
  destruct (counter_sum c - counter_sum p <=? 0) eqn:E.
  - split; reflexivity.
  - apply Z.leb_gt in E.
    destruct (Z2num_positive (counter_sum c - counter_sum p)) as (m & e & ->);
      [lia | unfold_ranges; lia |].
    apply percent_clamp, jmul_100_not_nan, jsub_1_not_nan, jdiv_not_nan.
    apply binary_normalize_not_nan.
Qed.

Lemma calc_exact rp rc :
  Forall counters_ok rp -> Forall counters_ok rc ->
  (List.length rc <= List.length rp)%nat ->
  calcCpuUsagePercent (os_cpus rp) (os_cpus rc)
  = Some (map (fun pc => usage_percent (fst pc) (snd pc)) (combine rp rc)).
Proof.
  intros Hp Hc. revert rp Hp. unfold os_cpus.
  induction Hc as [|c rc Hc _ IH]; intros rp Hp Hlen.
  - destruct rp; reflexivity.
  - destruct Hp as [|p rp Hp Hrp]; cbn [List.length] in Hlen; [lia|].
    cbn [map calcCpuUsagePercent combine fst snd].
    rewrite (IH rp Hrp) by lia.
    rewrite core_usage_exact by assumption. reflexivity.
Qed.

Lemma nth_error_usage rp rc i p c :
  nth_error rp i = Some p -> nth_error rc i = Some c ->
  nth_error (map (fun pc => usage_percent (fst pc) (snd pc)) (combine rp rc)) i
  = Some (usage_percent p c).
Proof.
  revert rp rc; induction i as [|i IH]; intros [|p' rp] [|c' rc] Hp Hc;
    simpl in *; try discriminate.
  - congruence.
  - apply IH; assumption.
Qed.

Lemma calc_some_length prev curr us :
  calcCpuUsagePercent prev curr = Some us ->
  (List.length curr <= List.length prev)%nat.
Proof.
  revert prev us; induction curr as [|c curr IH]; intros prev us H.
  - cbn [List.length]. lia.
  - destruct prev as [|p prev]; cbn [calcCpuUsagePercent] in H; [discriminate|].
    destruct (calcCpuUsagePercent prev curr) as [us'|] eqn:E; [|discriminate].
    cbn [List.length]. apply IH in E. lia.
Qed.

(** C5. For two snapshots of in-range counters, the later one with no more
    cores than the earlier one, [calcCpuUsagePercent] returns one value per
    core of the later snapshot, and the value at core [i] is the one of the
    specification: with [totalDelta] the difference of the sums
    user + nice + sys + idle + irq and [idleDelta] the difference of the
    idle counters, it is 0 when [totalDelta <= 0] and otherwise
    [(1 - idleDelta / totalDelta) * 100], computed in doubles and clamped to
    [[0, 100]]. *)
Theorem sample_usage_formula rp rc :
  Forall counters_ok rp -> Forall counters_ok rc ->
  (List.length rc <= List.length rp)%nat ->
  exists us,
    calcCpuUsagePercent (os_cpus rp) (os_cpus rc) = Some us /\
    List.length us = List.length rc /\
    forall i p c,
      nth_error rp i = Some p -> nth_error rc i = Some c ->
      nth_error us i = Some (usage_percent p c).
Proof.
  intros Hp Hc Hlen. eexists. split; [apply calc_exact; assumption|]. split.
  - rewrite length_map, length_combine. lia.
  - intros i p c. apply nth_error_usage.
Qed.

(** C6. For two snapshots of in-range counters: [calcCpuUsagePercent]
    returns as soon as the later snapshot has no more cores than the earlier
    one; every value it returns is a number between 0 and 100, also where
    [totalDelta <= 0]; and wherever the callback divides, the divisor is a
    positive finite number, so nothing is divided by zero. *)
Theorem sample_usage_within_0_100 rp rc :
  Forall counters_ok rp -> Forall counters_ok rc ->
  ((List.length rc <= List.length rp)%nat ->
   exists us, calcCpuUsagePercent (os_cpus rp) (os_cpus rc) = Some us) /\
  (forall us,
     calcCpuUsagePercent (os_cpus rp) (os_cpus rc) = Some us ->
     Forall percent us) /\
  (forall i p c totalDiff,
     nth_error rp i = Some p -> nth_error rc i = Some c ->
     divisor (js_times p) (js_times c) = Some totalDiff ->
     exists m e, totalDiff = S754_finite false m e).
Proof.
  intros Hp Hc. split; [|split].
  - intros Hlen. eexists. apply calc_exact; assumption.
  - intros us Hus.
    assert (Hlen := calc_some_length _ _ _ Hus).
    unfold os_cpus in Hlen. rewrite !length_map in Hlen.
    rewrite (calc_exact rp rc Hp Hc Hlen) in Hus. injection Hus as <-.
    apply Forall_forall. intros u Hu.
    apply in_map_iff in Hu. destruct Hu as ([p c] & <- & Hin).
    apply usage_percent_in_range.
    + apply (proj1 (Forall_forall _ _) Hp). eapply in_combine_l; eassumption.
    + apply (proj1 (Forall_forall _ _) Hc). eapply in_combine_r; eassumption.
  - intros i p c t Hip Hic. unfold divisor.
    assert (Hpo : counters_ok p).
    { apply (proj1 (Forall_forall _ _) Hp). eapply nth_error_In; eassumption. }
    assert (Hco : counters_ok c).
    { apply (proj1 (Forall_forall _ _) Hc). eapply nth_error_In; eassumption. }
    rewrite totalDiff_exact by assumption.
    rewrite jle_Z2num_0 by (unfold_ranges; lia).
    destruct (counter_sum c - counter_sum p <=? 0) eqn:E; [discriminate|].
    intros [= <-]. apply Z.leb_gt in E.
    apply Z2num_positive; [lia | unfold_ranges; lia].
Qed.

(** * The properties at concrete inputs *)

(** C3. A request without a duration is not refused: right after start-up,
    on four cores, it is answered [success: true] with the duration 60000
    and leaves four workers in the handle set. *)
Lemma missing_duration_starts_campaign :
  let '(st', r) := post_stress str_nan obj_nan 4 (JObj []) (init []) in
  success r = true /\
  duration r = Some num_60000 /\
  stressWorkers st' = [0%nat; 1%nat; 2%nat; 3%nat] /\
  posted st' = [(0%nat, num_60000); (1%nat, num_60000);
                (2%nat, num_60000); (3%nat, num_60000)] /\
  st' <> init [].
Proof.
  cbv. repeat split. discriminate.
Qed.

Lemma no_duration_validation_witness :
  isStressing (init []) = false /\
  stressWorkers
    (fst (post_stress str_nan obj_nan 4
            (JObj [("duration"%string, JNum (Z2num (-5)))]) (init [])))
  = seq 0 4 /\
  request_duration str_nan obj_nan
    (JObj [("duration"%string, JNum (Z2num (-5)))]) = Z2num (-5).
Proof.
  split; [reflexivity|].
  destruct (no_duration_validation str_nan obj_nan 4
              (JObj [("duration"%string, JNum (Z2num (-5)))]) (init [])
              eq_refl) as (_ & H2 & _ & H4).
  split; [exact H2|].
  apply (H4 (Z2num (-5))); reflexivity.
Defined.

Lemma stop_clears_everything_witness :
  fst (post_stop_stress (init [])) = init [] /\
  terminated (fst (post_stop_stress flagged)) = [0%nat; 1%nat].
Proof.
  split.
  - destruct (stop_clears_everything (init [])) as (_ & _ & _ & _ & H).
    apply H; reflexivity.
  - destruct (stop_clears_everything flagged) as (H & _).
    exact H.
Defined.

Lemma default_duration_60000_witness :
  ToBoolean (get_duration (JObj [])) = false /\
  isStressing (init []) = false /\
  ToBoolean JUndefined = false /\
  post_stress str_nan obj_nan 4 (JObj []) (init []) =
    (stressCPU 4 num_60000 (init []),
     {| success := true;
        message := "Stress test started";
        duration := Some num_60000 |}) /\
  deadline str_nan obj_nan (Z2num 1000) JUndefined = jadd (Z2num 1000) num_60000.
Proof.
  split; [reflexivity|]. split; [reflexivity|]. split; [reflexivity|].
  destruct (default_duration_60000 str_nan obj_nan 4 (JObj []) (init [])
              (Z2num 1000) JUndefined eq_refl eq_refl eq_refl) as (H1 & _ & H3).
  split; [exact H1|exact H3].
Defined.

Lemma sample_replaces_previous_witness :
  lastCpuSnapshot
    (fst (get_metrics fixed_none (os_cpus raw_after) []
            (fst (get_metrics fixed_none (os_cpus raw_before) []
                    (init (os_cpus raw_before))))))
  = os_cpus raw_after.
Proof.
  destruct (sample_replaces_previous fixed_none
              (os_cpus raw_before) (init (os_cpus raw_before))
              (os_cpus raw_before) [] (os_cpus raw_after) [])
    as (_ & us1 & us2 & _ & _ & H).
  - apply le_n.
  - apply le_n.
  - destruct H as (_ & _ & _ & H & _). exact H.
Defined.

Lemma clock2_before j :
  (1 <= j <= 2)%nat ->
  jlt (clock2 j) (jadd (clock2 O) (Z2num 5)) = true.
Proof.
  intros Hj.
  destruct j as [|[|[|j]]]; [lia|reflexivity|reflexivity|lia].
Defined.

Lemma worker_spins_until_deadline_witness :
  jlt num_0 (Z2num 5) = true /\
  jlt (clock2 3) (jadd (clock2 O) (Z2num 5)) = false /\
  worker_on_message str_nan obj_nan 3 clock2 (JNum (Z2num 5))
  = Some [Work; Work; PostDone].
Proof.
  split; [reflexivity|]. split; [reflexivity|].
  apply (worker_spins_until_deadline str_nan obj_nan clock2 (Z2num 5) 2 3).
  - reflexivity.
  - exact clock2_before.
  - reflexivity.
  - apply le_n.
Defined.

Lemma raw_before_ok : Forall counters_ok raw_before.
Proof.
  repeat constructor; unfold in_range; cbn; intro; discriminate.
Defined.

Lemma raw_after_ok : Forall counters_ok raw_after.
Proof.
  repeat constructor; unfold in_range; cbn; intro; discriminate.
Defined.

Lemma sample_usage_formula_witness :
  exists us,
    calcCpuUsagePercent (os_cpus raw_before) (os_cpus raw_after) = Some us /\
    List.length us = 2%nat /\
    forall i p c,
      nth_error raw_before i = Some p -> nth_error raw_after i = Some c ->
      nth_error us i = Some (usage_percent p c).
Proof.
  apply (sample_usage_formula raw_before raw_after raw_before_ok raw_after_ok).
  apply le_n.
Defined.

Lemma sample_usage_within_0_100_witness :
  Forall percent [Z2num 60; num_0].
Proof.
  destruct (sample_usage_within_0_100 raw_before raw_after
              raw_before_ok raw_after_ok) as (_ & H & _).
  apply H. reflexivity.
Defined.

(** The state after [POST /stress] with [{ "duration": 5000 }] as the first
    request on four cores: four workers, each sent 5000, and the flag down. *)
Example first_start_on_four_cores :
  fst (post_stress str_nan obj_nan 4
         (JObj [("duration"%string, JNum (Z2num 5000))]) (init []))
  = {| stressWorkers := [0%nat; 1%nat; 2%nat; 3%nat];
       isStressing := false;
       lastCpuSnapshot := [];
       created := 4;
       posted := [(0%nat, Z2num 5000); (1%nat, Z2num 5000);
                  (2%nat, Z2num 5000); (3%nat, Z2num 5000)];
       terminated := [];
       exited := [] |}.
Proof. reflexivity. Qed.

(** The usage of the two sample cores: 60 and 0, which [GET /metrics] shows
    as 60 and 0. *)
Example sample_two_cores :
  calcCpuUsagePercent (os_cpus raw_before) (os_cpus raw_after)
  = Some [Z2num 60; num_0] /\
  with_core 0 [Z2num 60; num_0] = [(0%nat, Z2num 60); (1%nat, num_0)].
Proof. split; reflexivity. Qed.

(** * Further properties of the load generator *)

Lemma exit_fields w st :
  stressWorkers (on_worker_exit w st)
  = filter (fun w' => negb (Nat.eqb w' w)) (stressWorkers st) /\
  lastCpuSnapshot (on_worker_exit w st) = lastCpuSnapshot st /\
  created (on_worker_exit w st) = created st /\
  posted (on_worker_exit w st) = posted st /\
  terminated (on_worker_exit w st) = terminated st /\
  exited (on_worker_exit w st) = w :: exited st.
Proof.
  unfold on_worker_exit. destruct (Nat.eqb _ 0); repeat split.
Qed.

Lemma exit_flag w st :
  isStressing (on_worker_exit w st)
  = if Nat.eqb (List.length (stressWorkers (on_worker_exit w st))) 0
    then false else isStressing st.
Proof.
  unfold on_worker_exit, worker. cbv zeta.
  match goal with
  | |- context [if ?b then _ else _] => destruct b eqn:E
  end;
    cbn [stressWorkers isStressing set_isStressing]; rewrite E; reflexivity.
Qed.

Lemma in_exit_filter w w' ws :
  In w' (filter (fun x => negb (Nat.eqb x w)) ws) <-> In w' ws /\ w' <> w.
Proof.
  rewrite filter_In, negb_true_iff, Nat.eqb_neq. reflexivity.
Qed.

Lemma filter_absent w ws :
  ~ In w ws -> filter (fun x => negb (Nat.eqb x w)) ws = ws.
Proof.
  intros Hw. induction ws as [|a ws IH]; [reflexivity|]. simpl.
  destruct (Nat.eqb a w) eqn:E.
  - apply Nat.eqb_eq in E. subst. exfalso. apply Hw. left. reflexivity.
  - simpl. rewrite IH; [reflexivity|]. intros H. apply Hw. right. exact H.
Qed.

(** X6. [stopStress] right after [stressCPU] empties the handle set, lowers
    the flag and has called [terminate()] on the workers that were there
    before the start and on the [numCPUs] new ones, in that order; a second
    [stopStress] then changes nothing. *)
Theorem stop_after_start numCPUs durationMs st :
  let st' := stopStress (stressCPU numCPUs durationMs st) in
  stressWorkers st' = [] /\
  isStressing st' = false /\
  terminated st' = terminated st ++ stressWorkers st ++ seq (created st) numCPUs /\
  created st' = (created st + numCPUs)%nat /\
  stopStress st' = st'.
Proof.
  destruct (stressCPU_fields numCPUs durationMs st)
    as (H1 & H2 & H3 & H4 & H5 & H6 & H7).
  destruct (stopStress_fields (stressCPU numCPUs durationMs st))
    as (K1 & K2 & K3 & K4 & K5 & K6 & K7).
  cbv zeta in *.
  split; [exact K1|]. split; [exact K2|]. split; [|split].
  - rewrite K6, H6, H1, app_assoc. reflexivity.
  - rewrite K4, H4. reflexivity.
  - destruct (stopStress_fields (stopStress (stressCPU numCPUs durationMs st)))
      as (L1 & L2 & L3 & L4 & L5 & L6 & L7).
    apply state_eq; try congruence.
    rewrite L6, K1. apply app_nil_r.
Qed.

(** X11. The [exit] of a worker constructed before a start leaves the
    workers of that start in the handle set: a late exit from an earlier
    campaign does not shorten the new one. *)
Theorem late_exit_spares_new_workers w numCPUs durationMs st :
  (w < created st)%nat ->
  stressWorkers (on_worker_exit w (stressCPU numCPUs durationMs st))
  = seq (created st) numCPUs.
Proof.
  intros Hw.
  destruct (exit_fields w (stressCPU numCPUs durationMs st)) as (H & _).
  destruct (stressCPU_fields numCPUs durationMs st) as (H1 & _).
  cbv zeta in H1. rewrite H, H1. apply filter_absent.
  rewrite in_seq. lia.
Qed.

Lemma exits_workers ws st :
  forall w', In w' (stressWorkers (exits ws st)) <->
             In w' (stressWorkers st) /\ ~ In w' ws.
Proof.
  unfold exits. revert st; induction ws as [|w ws IH]; intros st w'; simpl.
  - tauto.
  - rewrite IH. destruct (exit_fields w st) as (H & _). rewrite H.
    rewrite in_exit_filter. intuition congruence.
Qed.

Lemma exits_snoc ws w st : exits (ws ++ [w]) st = on_worker_exit w (exits ws st).
Proof. unfold exits. rewrite fold_left_app. reflexivity. Qed.

Lemma exits_empty ws st :
  (forall w, In w (stressWorkers st) -> In w ws) ->
  stressWorkers (exits ws st) = [].
Proof.
  intros Hall.
  destruct (stressWorkers (exits ws st)) as [|w' l] eqn:E; [reflexivity|].
  assert (Hin : In w' (stressWorkers (exits ws st)))
    by (rewrite E; left; reflexivity).
  apply exits_workers in Hin. destruct Hin as (H1 & H2).
  exfalso. apply H2, Hall, H1.
Qed.

Lemma exits_lower_flag ws st :
  ws <> [] -> stressWorkers (exits ws st) = [] ->
  isStressing (exits ws st) = false.
Proof.
  intros Hne Hempty.
  destruct (exists_last Hne) as (ws' & w & ->).
  rewrite exits_snoc in *. rewrite exit_flag, Hempty. reflexivity.
Qed.

(** X10. Once an [exit] event was delivered for every worker of the handle
    set, in whatever order and whatever other exits come with them, the
    handle set is empty and [isStressing] is false. *)
Theorem all_exits_reach_idle ws st :
  ws <> [] ->
  (forall w, In w (stressWorkers st) -> In w ws) ->
  stressWorkers (exits ws st) = [] /\ isStressing (exits ws st) = false.
Proof.
  intros Hne Hall.
  assert (Hempty := exits_empty ws st Hall).
  split; [exact Hempty|].
  apply exits_lower_flag; assumption.
Qed.

Section RunProperties.

Variable s2n : string -> num.
Variable o2n : jsval -> num.
Variable fx : num -> string.

(** What one event can do to the state. *)
Lemma step_cases st st' :
  step s2n o2n fx st st' ->
  st' = st \/
  (exists n d, st' = stressCPU n d st) \/
  st' = stopStress st \/
  (exists curr, st' = set_lastCpuSnapshot curr st) \/
  (exists w, (w < created st)%nat /\ st' = terminate w st) \/
  (exists w, (w < created st)%nat /\ ~ In w (exited st) /\
             st' = on_worker_exit w st).
Proof.
  intros H; destruct H.
  - unfold post_stress. destruct (isStressing st); cbn [fst]; eauto 6.
  - cbn [post_stop_stress fst]. auto.
  - unfold get_metrics.
    destruct (calcCpuUsagePercent (lastCpuSnapshot st) curr); cbn [fst]; eauto 6.
  - unfold on_worker_message.
    destruct (ToBoolean msg && ToBoolean (get_prop "done" msg)); eauto 8.
  - auto.
  - eauto 10.
Qed.

Lemma stressCPU_handles_ok n d st : handles_ok st -> handles_ok (stressCPU n d st).
Proof.
  intros (Hnd & Hin & Hex & Hte).
  destruct (stressCPU_fields n d st) as (H1 & _ & _ & H4 & _ & H6 & H7).
  cbv zeta in *. unfold handles_ok. rewrite H1, H4, H6, H7.
  split; [apply seq_NoDup|]. split; [|split].
  - intros w Hw. apply in_seq in Hw. split; [lia|].
    intros He. apply Hex in He. lia.
  - intros w Hw. apply Hex in Hw. lia.
  - intros w Hw. apply in_app_or in Hw. destruct Hw as [Hw|Hw].
    + apply Hte in Hw. lia.
    + apply Hin in Hw. lia.
Qed.

Lemma stopStress_handles_ok st : handles_ok st -> handles_ok (stopStress st).
Proof.
  intros (Hnd & Hin & Hex & Hte).
  destruct (stopStress_fields st) as (H1 & _ & _ & H4 & _ & H6 & H7).
  unfold handles_ok. rewrite H1, H4, H6, H7.
  split; [constructor|]. split; [|split].
  - intros w [].
  - exact Hex.
  - intros w Hw. apply in_app_or in Hw. destruct Hw as [Hw|Hw].
    + apply Hte, Hw.
    + apply Hin, Hw.
Qed.

Lemma exit_handles_ok w st :
  (w < created st)%nat -> handles_ok st -> handles_ok (on_worker_exit w st).
Proof.
  intros Hw (Hnd & Hin & Hex & Hte).
  destruct (exit_fields w st) as (H1 & _ & H3 & _ & H5 & H6).
  unfold handles_ok. rewrite H1, H3, H5, H6.
  split; [apply NoDup_filter, Hnd|]. split; [|split].
  - intros w' Hw'. apply in_exit_filter in Hw'. destruct Hw' as (Hw' & Hne).
    destruct (Hin w' Hw') as (Hc & Hx). split; [exact Hc|].
    intros [He|He]; [congruence|contradiction].
  - intros w' [<-|Hw']; [exact Hw|apply Hex, Hw'].
  - exact Hte.
Qed.

Lemma step_handles_ok st st' :
  step s2n o2n fx st st' -> handles_ok st -> handles_ok st'.
Proof.
  intros Hs Hok. apply step_cases in Hs.
  destruct Hs as [->|[(n & d & ->)|[->|[(curr & ->)|[(w & Hw & ->)|(w & Hw & _ & ->)]]]]].
  - exact Hok.
  - apply stressCPU_handles_ok, Hok.
  - apply stopStress_handles_ok, Hok.
  - exact Hok.
  - destruct Hok as (Hnd & Hin & Hex & Hte).
    unfold handles_ok; cbn [terminate stressWorkers created exited terminated].
    repeat split; try assumption; try (apply Hin; assumption).
    intros w' Hw'. apply in_app_or in Hw'. destruct Hw' as [Hw'|[<-|[]]].
    + apply Hte, Hw'.
    + exact Hw.
  - apply exit_handles_ok; assumption.
Qed.

(** X7. Between any two events the workers of the handle set are distinct,
    were constructed, and have not exited; and only constructed workers
    have exited or been terminated. *)
Theorem reachable_handles_ok boot st :
  reachable s2n o2n fx boot st -> handles_ok st.
Proof.
  induction 1 as [|st st' _ IH Hstep].
  - unfold handles_ok; cbn [init stressWorkers created exited terminated].
    split; [constructor|]. split; [|split]; intros w [].
  - exact (step_handles_ok _ _ Hstep IH).
Qed.

(** X8. Between any two events every worker constructed so far has been
    posted exactly one message, in the order of construction. *)
Theorem reachable_one_message_per_worker boot st :
  reachable s2n o2n fx boot st ->
  map fst (posted st) = seq 0 (created st).
Proof.
  induction 1 as [|st st' _ IH Hstep]; [reflexivity|].
  apply step_cases in Hstep.
  destruct Hstep as [->|[(n & d & ->)|[->|[(curr & ->)|[(w & Hw & ->)|(w & Hw & _ & ->)]]]]];
    try exact IH.
  - destruct (stressCPU_fields n d st) as (_ & _ & _ & H4 & H5 & _).
    cbv zeta in *. rewrite H4, H5, map_app, IH, map_map, seq_app.
    cbn [fst]. rewrite map_id. reflexivity.
  - destruct (stopStress_fields st) as (_ & _ & _ & H4 & H5 & _).
    rewrite H4, H5. exact IH.
  - destruct (exit_fields w st) as (_ & _ & H3 & H4 & _).
    rewrite H3, H4. exact IH.
Qed.

(** X9. No worker is lost track of: between any two events every worker
    constructed so far is in the handle set, or [terminate()] was called on
    it, or it has exited. *)
Theorem reachable_no_leak boot st :
  reachable s2n o2n fx boot st ->
  forall w, (w < created st)%nat ->
            In w (stressWorkers st) \/ In w (terminated st) \/ In w (exited st).
Proof.
  induction 1 as [|st st' _ IH Hstep]; [cbn; intros w Hw; lia|].
  apply step_cases in Hstep.
  destruct Hstep as [->|[(n & d & ->)|[->|[(curr & ->)|[(w0 & Hw0 & ->)|(w0 & Hw0 & _ & ->)]]]]];
    try exact IH.
  - destruct (stressCPU_fields n d st) as (H1 & _ & _ & H4 & _ & H6 & H7).
    cbv zeta in *. rewrite H1, H4, H6, H7. intros w Hw.
    destruct (Nat.lt_ge_cases w (created st)) as [Hlt|Hge].
    + destruct (IH w Hlt) as [Hi|[Hi|Hi]].
      * right; left. apply in_or_app. right. exact Hi.
      * right; left. apply in_or_app. left. exact Hi.
      * right; right. exact Hi.
    + left. apply in_seq. lia.
  - destruct (stopStress_fields st) as (H1 & _ & _ & H4 & _ & H6 & H7).
    rewrite H1, H4, H6, H7. intros w Hw.
    destruct (IH w Hw) as [Hi|[Hi|Hi]].
    + right; left. apply in_or_app. right. exact Hi.
    + right; left. apply in_or_app. left. exact Hi.
    + right; right. exact Hi.
  - cbn [terminate stressWorkers created exited terminated]. intros w Hw.
    destruct (IH w Hw) as [Hi|[Hi|Hi]]; auto.
    right; left. apply in_or_app. left. exact Hi.
  - destruct (exit_fields w0 st) as (H1 & _ & H3 & _ & H5 & H6).
    rewrite H1, H3, H5, H6. intros w Hw.
    destruct (IH w Hw) as [Hi|[Hi|Hi]].
    + destruct (Nat.eq_dec w w0) as [->|Hne].
      * right; right. left. reflexivity.
      * left. apply in_exit_filter. split; assumption.
    + right; left. exact Hi.
    + right; right. right. exact Hi.
Qed.

End RunProperties.

(** * Further properties of the sampler's plumbing *)

(** X1. [calcCpuUsagePercent] throws (reading [p.times] of an undefined
    [prev[i]]) exactly when [curr] has more entries than [prev]; when it
    returns, it returns one value per entry of [curr]. *)
Theorem calc_throws_iff prev curr :
  (calcCpuUsagePercent prev curr = None <->
   (List.length prev < List.length curr)%nat) /\
  (forall us, calcCpuUsagePercent prev curr = Some us ->
              List.length us = List.length curr).
Proof.
  revert prev; induction curr as [|c curr IH]; intros prev.
  - cbn. split; [split; [discriminate|lia]|]. intros us [= <-]. reflexivity.
  - destruct prev as [|p prev]; cbn [calcCpuUsagePercent List.length].
    + split; [split; [lia|reflexivity]|discriminate].
    + destruct (IH prev) as (Hn & Hs).
      destruct (calcCpuUsagePercent prev curr) as [us'|].
      * split.
        -- split; [discriminate|]. intros Hlt.
           assert (Some us' = None) by (apply Hn; lia). discriminate.
        -- intros us [= <-]. cbn [List.length]. rewrite (Hs us' eq_refl).
           reflexivity.
      * split; [|discriminate].
        split; [|reflexivity]. intros _.
        assert (List.length prev < List.length curr)%nat by (apply Hn; reflexivity).
        lia.
Qed.

(** X2. Entries of [prev] past the length of [curr] play no part: the
    result is the one for [prev] cut to the length of [curr]. *)
Theorem calc_ignores_surplus_cores prev curr :
  calcCpuUsagePercent prev curr
  = calcCpuUsagePercent (firstn (List.length curr) prev) curr.
Proof.
  revert prev; induction curr as [|c curr IH]; intros prev; [reflexivity|].
  destruct prev as [|p prev]; [reflexivity|].
  cbn [calcCpuUsagePercent List.length firstn]. rewrite <- IH. reflexivity.
Qed.

Lemma usage_percent_same p : usage_percent p p = num_0.
Proof.
  unfold usage_percent. rewrite Z.sub_diag. reflexivity.
Qed.

(** X3. Two readings of the same in-range counters, as in a sample taken
    before any counter has advanced, report 0 on every core. *)
Theorem unchanged_counters_report_zero raw :
  Forall counters_ok raw ->
  calcCpuUsagePercent (os_cpus raw) (os_cpus raw)
  = Some (repeat num_0 (List.length raw)).
Proof.
  intros Hok. rewrite (calc_exact raw raw Hok Hok (le_n _)). f_equal.
  clear Hok. induction raw as [|p raw IH]; [reflexivity|].
  cbn [combine map fst snd List.length repeat].
  rewrite usage_percent_same, IH. reflexivity.
Qed.

Lemma calc_none_of_longer prev curr :
  (List.length prev < List.length curr)%nat ->
  calcCpuUsagePercent prev curr = None.
Proof.
  intros Hlt.
  destruct (calcCpuUsagePercent prev curr) as [us|] eqn:E; [|reflexivity].
  apply calc_some_length in E. lia.
Qed.

Lemma calc_some_values prev curr us :
  calcCpuUsagePercent prev curr = Some us ->
  List.length us = List.length curr.
Proof.
  intros E.
  destruct (calc_total prev curr (calc_some_length _ _ _ E)) as (us' & E' & Hl).
  congruence.
Qed.

Lemma with_core_indices i us : map fst (with_core i us) = seq i (List.length us).
Proof.
  revert i; induction us as [|u us IH]; intros i; [reflexivity|].
  cbn [with_core map fst List.length seq]. rewrite IH. reflexivity.
Qed.

Section SamplerRoute.

Variable fx : num -> string.

(** X14. A [GET /metrics] that answers reports [totalCPUs] as the number of
    cores of the fresh snapshot, numbers the cores 0, 1, ..., in order, gives
    one load average per value of [os.loadavg()], reports the value of
    [isStressing], and changes nothing but the stored snapshot. *)
Theorem metrics_response_shape curr load st r :
  snd (get_metrics fx curr load st) = Some r ->
  totalCPUs r = List.length curr /\
  map fst (cpus r) = seq 0 (List.length curr) /\
  List.length (loadAvg r) = List.length load /\
  r_isStressing r = isStressing st /\
  fst (get_metrics fx curr load st) = set_lastCpuSnapshot curr st.
Proof.
  unfold get_metrics.
  destruct (calcCpuUsagePercent (lastCpuSnapshot st) curr) as [us|] eqn:E;
    [|discriminate].
  intros [= <-]. cbn.
  rewrite with_core_indices, (calc_some_values _ _ _ E), length_map.
  repeat split.
Qed.

(** X13. When the stored snapshot has fewer cores than every snapshot that
    follows, each [GET /metrics] throws and none updates the stored
    snapshot: the sampler does not recover. *)
Theorem sampler_stays_stuck currs load st :
  Forall (fun curr =>
            (List.length (lastCpuSnapshot st) < List.length curr)%nat) currs ->
  sample_all fx currs load st = (st, repeat None (List.length currs)).
Proof.
  induction 1 as [|curr currs Hc _ IH]; [reflexivity|].
  cbn [sample_all List.length repeat]. unfold get_metrics.
  rewrite (calc_none_of_longer _ _ Hc), IH. reflexivity.
Qed.

End SamplerRoute.

(** * Further properties of the worker's loop *)

(** X16. What the loop can do with [fuel] turns: it is still running
    exactly when every reading it took was below the deadline; and when it
    is over, it did nothing but [Work], one round for each reading below the
    deadline, and stopped at the first reading that was not. *)
Theorem busy_loop_outcome clock end_ fuel :
  forall k,
    (busy_loop fuel clock k end_ = None <->
     forall j, (k <= j < k + fuel)%nat -> jlt (clock j) end_ = true) /\
    (forall acts,
       busy_loop fuel clock k end_ = Some acts ->
       acts = repeat Work (List.length acts) /\
       (List.length acts < fuel)%nat /\
       (forall j, (k <= j < k + List.length acts)%nat ->
                  jlt (clock j) end_ = true) /\
       jlt (clock (k + List.length acts)%nat) end_ = false).
Proof.
  induction fuel as [|fuel IH]; intros k.
  - cbn [busy_loop]. split; [split; [intros _ j Hj; lia|reflexivity]|discriminate].
  - cbn [busy_loop]. destruct (IH (S k)) as (HN & HS).
    destruct (jlt (clock k) end_) eqn:Ek.
    + destruct (busy_loop fuel clock (S k) end_) as [acts'|].
      * split.
        -- split; [discriminate|]. intros Hall.
           assert (Some acts' = None) by (apply HN; intros j Hj; apply Hall; lia).
           discriminate.
        -- intros acts [= <-]. destruct (HS acts' eq_refl) as (H1 & H2 & H3 & H4).
           cbn [List.length repeat]. split; [f_equal; exact H1|].
           split; [lia|]. split.
           ++ intros j Hj. destruct (Nat.eq_dec j k) as [->|Hne]; [exact Ek|].
              apply H3. lia.
           ++ replace (k + S (List.length acts'))%nat
                with (S k + List.length acts')%nat by lia. exact H4.
      * split; [|discriminate]. split; [|reflexivity]. intros _ j Hj.
        destruct (Nat.eq_dec j k) as [->|Hne]; [exact Ek|].
        apply (proj1 HN eq_refl). lia.
    + split.
      * split; [discriminate|]. intros Hall.
        rewrite (Hall k) in Ek by lia. discriminate.
      * intros acts [= <-]. cbn [List.length repeat].
        split; [reflexivity|]. split; [lia|]. split; [intros j Hj; lia|].
        rewrite Nat.add_0_r. exact Ek.
Qed.

Lemma busy_loop_none clock end_ fuel :
  forall k,
    (forall j, (k <= j < k + fuel)%nat -> jlt (clock j) end_ = true) ->
    busy_loop fuel clock k end_ = None.
Proof.
  induction fuel as [|fuel IH]; intros k Hall; [reflexivity|].
  cbn [busy_loop]. rewrite (Hall k) by lia.
  rewrite (IH (S k)); [reflexivity|].
  intros j Hj. apply Hall. lia.
Qed.

Section WorkerEdge.

Variable s2n : string -> num.
Variable o2n : jsval -> num.

(** X15. A worker sent the duration [Infinity] never posts [done]: on a
    clock of finite readings no number of loop turns is enough. *)
Theorem infinite_duration_never_done clock fuel :
  (forall k, finite_num (clock k) = true) ->
  worker_on_message s2n o2n fuel clock (JNum (S754_infinity false)) = None.
Proof.
  intros Hfin. unfold worker_on_message, deadline, js_or.
  cbn [ToBoolean ToNumber].
  assert (Hend : jadd (clock O) (S754_infinity false) = S754_infinity false).
  { specialize (Hfin O). destruct (clock O); try discriminate; reflexivity. }
  rewrite Hend.
  rewrite busy_loop_none; [reflexivity|].
  intros j _. specialize (Hfin j).
  destruct (clock j) as [s|s| |s m e]; try discriminate; destruct s; reflexivity.
Qed.

End WorkerEdge.

(** * Further properties of the sampler's arithmetic *)

Lemma digits2_canon c :
  Z.pos (digits2_pos c) <= 53 ->
  Z.pos (digits2_pos (Z.to_pos (Z.pos c * 2 ^ (53 - Z.pos (digits2_pos c))))) = 53.
Proof.
  intros Hd.
  rewrite (digits2_pos_shift c _ (53 - Z.pos (digits2_pos c))).
  - lia.
  - lia.
  - apply canon_mantissa, Hd.
Qed.

(** A canonical double divided by itself is exactly 1. *)
Lemma jdiv_canon_self s c :
  Z.pos (digits2_pos c) <= 53 -> jdiv (canon s c) (canon s c) = num_1.
Proof.
  intros Hd. unfold jdiv, canon, SFdiv, SFdiv_core_binary.
  cbn [Zdigits2]. rewrite (digits2_canon c Hd).
  set (M := Z.to_pos (Z.pos c * 2 ^ (53 - Z.pos (digits2_pos c)))).
  set (e := Z.pos (digits2_pos c) - 53).
  replace (53 + e - (53 + e)) with 0 by lia.
  replace (e - e) with 0 by lia.
  change (Z.min (fexp prec emax 0) 0) with (-53).
  change (0 - -53) with 53.
  rewrite Z.shiftl_mul_pow2 by lia.
  assert (Hq : Z.div_eucl (Z.pos M * 2 ^ 53) (Z.pos M) = (2 ^ 53, 0)).
  { assert (Hdm := Z_div_mod_full (Z.pos M * 2 ^ 53) (Z.pos M) ltac:(lia)).
    assert (Hd' : (Z.pos M * 2 ^ 53) / Z.pos M = 2 ^ 53).
    { rewrite Z.mul_comm. apply Z.div_mul. lia. }
    assert (Hm' : (Z.pos M * 2 ^ 53) mod Z.pos M = 0).
    { rewrite Z.mul_comm. apply Z.mod_mul. lia. }
    unfold Z.div in Hd'. unfold Z.modulo in Hm'.
    destruct (Z.div_eucl (Z.pos M * 2 ^ 53) (Z.pos M)) as [q r].
    cbn [fst snd] in *. subst. reflexivity. }
  rewrite Hq.
  replace (new_location (Z.pos M) 0) with loc_Exact
    by (unfold new_location; destruct (Z.even (Z.pos M)); reflexivity).
  destruct s; reflexivity.
Qed.

Lemma Z2num_div_self t :
  0 < t -> small t -> jdiv (Z2num t) (Z2num t) = num_1.
Proof.
  intros Hpos Hs. rewrite (Z2num_canon t Hs).
  destruct t as [|c|c]; try lia.
  apply jdiv_canon_self, small_digits, Hs.
Qed.

Lemma Z2num_div_zero t :
  0 < t -> small t -> jdiv (Z2num 0) (Z2num t) = num_0.
Proof.
  intros Hpos Hs. rewrite (Z2num_canon t Hs).
  destruct t as [|c|c]; try lia. reflexivity.
Qed.

(** X4. For in-range counters whose total has advanced: a core whose idle
    counter has not moved is reported at exactly 100, and a core whose idle
    counter took the whole advance is reported at exactly 0; neither value is
    off by a rounding error. *)
Theorem saturated_and_idle_cores p c :
  counters_ok p -> counters_ok c ->
  counter_sum p < counter_sum c ->
  (c_idle c = c_idle p ->
   core_usage (js_times p) (js_times c) = num_100) /\
  (c_idle c - c_idle p = counter_sum c - counter_sum p ->
   core_usage (js_times p) (js_times c) = num_0).
Proof.
  intros Hp Hc Hlt. rewrite (core_usage_exact p c Hp Hc). unfold usage_percent.
  replace (counter_sum c - counter_sum p <=? 0) with false
    by (symmetry; apply Z.leb_gt; lia).
  assert (Hs : small (counter_sum c - counter_sum p)) by (unfold_ranges; lia).
  split.
  - intros ->. rewrite Z.sub_diag, Z2num_div_zero by (assumption || lia).
    reflexivity.
  - intros ->. rewrite Z2num_div_self by (assumption || lia).
    reflexivity.
Qed.

(** ** The size of a rounded mantissa *)

Lemma shr_1_half r : 0 <= shr_m r -> shr_m (shr_1 r) = shr_m r / 2.
Proof.
  destruct r as [m r s]; cbn [shr_m]. intros Hm.
  destruct m as [|[p|p|]|p]; cbn [shr_1 shr_m]; try reflexivity; try lia.
  - rewrite (Pos2Z.inj_xI p). apply Z.div_unique with (r := 1); lia.
  - rewrite (Pos2Z.inj_xO p). apply Z.div_unique with (r := 0); lia.
Qed.

Lemma nat_iter_shr_1_div n r :
  0 <= shr_m r -> shr_m (Nat.iter n shr_1 r) = shr_m r / 2 ^ Z.of_nat n.
Proof.
  intros Hr. induction n as [|n IH].
  - cbn. rewrite Z.div_1_r. reflexivity.
  - rewrite Nat.iter_succ, shr_1_half by (apply nat_iter_shr_1_nonneg, Hr).
    rewrite IH, Z.div_div, Nat2Z.inj_succ, Z.pow_succ_r by lia.
    f_equal. lia.
Qed.

Lemma Zdigits2_bound m : 0 <= m -> m < 2 ^ Zdigits2 m.
Proof.
  intros Hm. destruct m as [|p|p]; [reflexivity| |lia].
  cbn [Zdigits2]. rewrite digits2_pos_log2.
  apply Z.log2_spec. lia.
Qed.

Lemma shr_fexp_bound m e l :
  0 <= m -> shr_m (fst (shr_fexp prec emax m e l)) < 2 ^ 53.
Proof.
  intros Hm. unfold shr_fexp, shr.
  assert (Hrec : shr_m (shr_record_of_loc m l) = m)
    by (destruct l as [|[| |]]; reflexivity).
  assert (Hb := Zdigits2_bound m Hm).
  assert (Hd : 0 <= Zdigits2 m) by (destruct m; cbn; lia).
  assert (Hf : Zdigits2 m + e - 53 <= fexp prec emax (Zdigits2 m + e))
    by (unfold fexp, prec; lia).
  destruct (fexp prec emax (Zdigits2 m + e) - e) as [|p|p] eqn:Hn; cbn [fst].
  - rewrite Hrec. apply Z.lt_le_trans with (1 := Hb).
    apply Z.pow_le_mono_r; lia.
  - rewrite iter_pos_nat, nat_iter_shr_1_div, Hrec, positive_nat_Z
      by (rewrite Hrec; exact Hm).
    apply Z.div_lt_upper_bound; [apply Z.pow_pos_nonneg; lia|].
    rewrite <- Z.pow_add_r by lia.
    apply Z.lt_le_trans with (1 := Hb).
    apply Z.pow_le_mono_r; lia.
  - rewrite Hrec. apply Z.lt_le_trans with (1 := Hb).
    apply Z.pow_le_mono_r; lia.
Qed.

(** Whatever is rounded, a finite result has a mantissa of at most 53 bits. *)
Lemma binary_round_aux_bound sx mx ex lx s m e :
  0 <= mx ->
  binary_round_aux prec emax sx mx ex lx = S754_finite s m e ->
  Z.pos m < 2 ^ 53.
Proof.
  intros Hm. unfold binary_round_aux.
  assert (H1 := shr_fexp_nonneg mx ex lx Hm).
  destruct (shr_fexp prec emax mx ex lx) as [mrs' e']. cbn [fst] in H1.
  assert (H2 := shr_fexp_bound
                  (round_nearest_even (shr_m mrs') (loc_of_shr_record mrs'))
                  e' loc_Exact (round_nearest_even_nonneg _ _ H1)).
  destruct (shr_fexp prec emax _ e' loc_Exact) as [mrs'' e'']. cbn [fst] in H2.
  destruct (shr_m mrs'') as [|p|p]; try discriminate.
  destruct (e'' <=? emax - prec); [|discriminate].
  intros [= _ <- _]. exact H2.
Qed.

Lemma jmul_100_bound x s m e :
  jmul x num_100 = S754_finite s m e -> Z.pos m < 2 ^ 53.
Proof.
  unfold jmul, num_100, SFmul.
  destruct x as [sx|sx| |sx mx ex]; try discriminate.
  apply binary_round_aux_bound. lia.
Qed.

(** ** What [Math.round] makes of a percentage *)

Lemma round_below_100 m e :
  Z.pos m < 2 ^ 53 ->
  SFcompare num_100 (S754_finite false m e) = Some Gt ->
  exists k, 0 <= k <= 100 /\ Math_round (S754_finite false m e) = Z2num k.
Proof.
  intros Hm Hcmp. unfold num_100 in Hcmp. cbn [SFcompare] in Hcmp.
  assert (He : e <= -46).
  { destruct (Z.compare_spec (-46) e) as [Heq|Hlt|Hgt]; try lia; discriminate. }
  assert (Hle : Z.pos m <= 100 * 2 ^ (- e)).
  { destruct (Z.compare_spec (-46) e) as [Heq|Hlt|Hgt]; try discriminate.
    - subst e. injection Hcmp as Hcmp.
      change (Pos.compare_cont Eq 7036874417766400 m)
        with (Z.pos 7036874417766400 ?= Z.pos m) in Hcmp.
      apply Z.compare_gt_iff in Hcmp.
      change (2 ^ (- -46)) with 70368744177664. lia.
    - assert (2 ^ 47 <= 2 ^ (- e)) by (apply Z.pow_le_mono_r; lia).
      change (2 ^ 53) with (64 * 2 ^ 47) in Hm. lia. }
  unfold Math_round.
  replace (e <? 0) with true by (symmetry; apply Z.ltb_lt; lia).
  replace (1 - e) with (Z.succ (- e)) by lia.
  rewrite Z.pow_succ_r by lia.
  set (K := 2 ^ (- e)) in *.
  assert (HK : 0 < K) by (apply Z.pow_pos_nonneg; lia).
  set (r := (2 * Z.pos m + K) / (2 * K)).
  assert (Hr0 : 0 <= r) by (apply Z.div_pos; lia).
  assert (Hr1 : r <= 100).
  { apply Z.lt_succ_r. apply Z.div_lt_upper_bound; lia. }
  destruct (r =? 0) eqn:Er.
  - exists 0. split; [lia|reflexivity].
  - exists r. split; [lia|reflexivity].
Qed.

Lemma clamp_rounds_to_percent x :
  x <> S754_nan ->
  exists k, 0 <= k <= 100 /\
            Math_round (clamp_0_100 (jmul x num_100)) = Z2num k.
Proof.
  intros Hx. unfold clamp_0_100.
  destruct (jle (jmul x num_100) num_0) eqn:E0.
  - exists 0. split; [lia|reflexivity].
  - destruct (jle num_100 (jmul x num_100)) eqn:E1.
    + exists 100. split; [lia|reflexivity].
    + assert (Hn := jmul_100_not_nan x Hx).
      destruct (jmul x num_100) as [s|s| |s m e] eqn:Eu.
      * discriminate E0.
      * destruct s; discriminate.
      * congruence.
      * destruct s; [discriminate E0|].
        apply round_below_100.
        -- exact (jmul_100_bound x false m e Eu).
        -- unfold jle, SFleb in E1.
           destruct (SFcompare num_100 (S754_finite false m e)) as [[| |]|] eqn:C;
             try discriminate E1; [reflexivity|discriminate C].
Qed.

Lemma usage_percent_rounds p c :
  counters_ok p -> counters_ok c ->
  exists k, 0 <= k <= 100 /\ Math_round (usage_percent p c) = Z2num k.
Proof.
  intros Hp Hc. unfold usage_percent.
  destruct (counter_sum c - counter_sum p <=? 0) eqn:E.
  - exists 0. split; [lia|reflexivity].
  - apply Z.leb_gt in E.
    destruct (Z2num_positive (counter_sum c - counter_sum p)) as (m & e & ->);
      [lia | unfold_ranges; lia |].
    apply clamp_rounds_to_percent, jsub_1_not_nan, jdiv_not_nan.
    apply binary_normalize_not_nan.
Qed.

Lemma with_core_in i us j v :
  In (j, v) (with_core i us) -> exists u, In u us /\ v = Math_round u.
Proof.
  revert i; induction us as [|u us IH]; intros i; cbn [with_core]; [intros []|].
  intros [[= _ <-]|Hin].
  - exists u. split; [left|]; reflexivity.
  - destruct (IH _ Hin) as (u' & Hu' & ->). exists u'. split; [right|]; auto.
Qed.

Section DisplayedUsage.

Variable fx : num -> string.

(** X5. When the stored and the fresh snapshot hold in-range counters,
    every [usage] that [GET /metrics] answers is a whole number between 0
    and 100. *)
Theorem displayed_usage_is_whole_percent rp rc load st r :
  Forall counters_ok rp -> Forall counters_ok rc ->
  lastCpuSnapshot st = os_cpus rp ->
  snd (get_metrics fx (os_cpus rc) load st) = Some r ->
  forall core usage,
    In (core, usage) (cpus r) ->
    exists k, 0 <= k <= 100 /\ usage = Z2num k.
Proof.
  intros Hp Hc Hlast. unfold get_metrics. rewrite Hlast.
  destruct (calcCpuUsagePercent (os_cpus rp) (os_cpus rc)) as [us|] eqn:E;
    [|discriminate].
  intros [= <-] core usage Hin. cbn [cpus] in Hin.
  apply with_core_in in Hin. destruct Hin as (u & Hu & ->).
  assert (Hlen := calc_some_length _ _ _ E).
  unfold os_cpus in Hlen. rewrite !length_map in Hlen.
  rewrite (calc_exact rp rc Hp Hc Hlen) in E. injection E as <-.
  apply in_map_iff in Hu. destruct Hu as ([p c] & <- & Hpc).
  apply usage_percent_rounds.
  - apply (proj1 (Forall_forall _ _) Hp). eapply in_combine_l; eassumption.
  - apply (proj1 (Forall_forall _ _) Hc). eapply in_combine_r; eassumption.
Qed.

End DisplayedUsage.

(** * The worker on a clock of whole milliseconds *)

Lemma canon_compare ca cb :
  Z.pos (digits2_pos ca) <= 53 -> Z.pos (digits2_pos cb) <= 53 ->
  match Z.pos (digits2_pos ca) - 53 ?= Z.pos (digits2_pos cb) - 53 with
  | Lt => Lt
  | Gt => Gt
  | Eq => Pos.compare_cont Eq
            (Z.to_pos (Z.pos ca * 2 ^ (53 - Z.pos (digits2_pos ca))))
            (Z.to_pos (Z.pos cb * 2 ^ (53 - Z.pos (digits2_pos cb))))
  end = (Z.pos ca ?= Z.pos cb).
Proof.
  intros Ha Hb.
  assert (La := Z.log2_spec (Z.pos ca) ltac:(lia)).
  assert (Lb := Z.log2_spec (Z.pos cb) ltac:(lia)).
  rewrite !digits2_pos_log2 in *.
  destruct (Z.compare_spec (Z.log2 (Z.pos ca) + 1 - 53) (Z.log2 (Z.pos cb) + 1 - 53))
    as [Heq|Hlt|Hgt].
  - assert (E : Z.log2 (Z.pos ca) = Z.log2 (Z.pos cb)) by lia.
    rewrite E.
    set (k := 53 - (Z.log2 (Z.pos cb) + 1)).
    assert (Hk : 0 < 2 ^ k) by (apply Z.pow_pos_nonneg; unfold k; lia).
    change (Pos.compare_cont Eq ?x ?y) with (Z.pos x ?= Z.pos y).
    rewrite !Z2Pos.id by (apply Z.mul_pos_pos; lia).
    symmetry. apply Zmult_compare_compat_r. lia.
  - symmetry. apply Z.compare_lt_iff.
    assert (2 ^ Z.succ (Z.log2 (Z.pos ca)) <= 2 ^ Z.log2 (Z.pos cb))
      by (apply Z.pow_le_mono_r; lia).
    lia.
  - symmetry. apply Z.compare_gt_iff.
    assert (2 ^ Z.succ (Z.log2 (Z.pos cb)) <= 2 ^ Z.log2 (Z.pos ca))
      by (apply Z.pow_le_mono_r; lia).
    lia.
Qed.

(** Doubles of integers below [2^53] compare as the integers do. *)
Lemma SFcompare_Z2num a b :
  small a -> small b -> SFcompare (Z2num a) (Z2num b) = Some (a ?= b).
Proof.
  intros Ha Hb. rewrite (Z2num_canon a Ha), (Z2num_canon b Hb).
  destruct a as [|ca|ca], b as [|cb|cb]; try reflexivity.
  - unfold canon. cbn [SFcompare]. f_equal.
    apply canon_compare; apply small_digits; assumption.
  - unfold canon. cbn [SFcompare]. f_equal.
    assert (H := canon_compare ca cb (small_digits_neg ca Ha)
                   (small_digits_neg cb Hb)).
    change (Z.neg ca ?= Z.neg cb) with (CompOpp (Z.pos ca ?= Z.pos cb)).
    rewrite <- H.
    destruct (Z.pos (digits2_pos ca) - 53 ?= Z.pos (digits2_pos cb) - 53);
      reflexivity.
Qed.

Lemma jlt_Z2num a b : small a -> small b -> jlt (Z2num a) (Z2num b) = (a <? b).
Proof.
  intros Ha Hb. unfold jlt, SFltb, Z.ltb. rewrite SFcompare_Z2num by assumption.
  reflexivity.
Qed.

Section WorkerMsClock.

Variable s2n : string -> num.
Variable o2n : jsval -> num.

Lemma deadline_ms t0 z :
  Z.abs t0 < 2 ^ 52 -> Z.abs z < 2 ^ 52 ->
  deadline s2n o2n (Z2num t0) (JNum (Z2num z)) = Z2num (t0 + effective_ms z).
Proof.
  intros Ht Hz. unfold deadline, js_or, effective_ms.
  change (2 ^ 52) with 4503599627370496 in *.
  assert (Hsz : small z) by (unfold_ranges; lia).
  destruct (Z.eqb_spec z 0) as [->|Hne].
  - cbn [ToBoolean Z2num binary_normalize ToNumber].
    apply (jadd_exact t0 60000); unfold_ranges; lia.
  - replace (ToBoolean (JNum (Z2num z))) with true.
    + cbn [ToNumber]. apply jadd_exact; unfold_ranges; lia.
    + rewrite (Z2num_canon z Hsz). destruct z; [lia|reflexivity|reflexivity].
Qed.

(** X17. On a clock of whole milliseconds, a worker sent the integer [z]
    has the deadline [t 0 + z] exactly, with 60000 for [z = 0]: it works
    while the readings are below it and posts [done] at the first one that
    is not.  For a negative [z] and a clock that does not run backwards this
    is at once, without a round of work. *)
Theorem worker_on_ms_clock t z n fuel :
  (forall k, (k <= S n)%nat -> Z.abs (t k) < 2 ^ 52) ->
  Z.abs z < 2 ^ 52 ->
  (forall j, (1 <= j <= n)%nat -> t j < t O + effective_ms z) ->
  t O + effective_ms z <= t (S n) ->
  (n < fuel)%nat ->
  worker_on_message s2n o2n fuel (ms_clock t) (JNum (Z2num z))
  = Some (repeat Work n ++ [PostDone]).
Proof.
  intros Ht Hz Hbefore Hat Hfuel.
  assert (Heff : Z.abs (effective_ms z) < 2 ^ 52).
  { unfold effective_ms. destruct (z =? 0); [reflexivity|exact Hz]. }
  assert (Ht0 := Ht O ltac:(lia)).
  assert (Hend : small (t O + effective_ms z)).
  { change (2 ^ 52) with 4503599627370496 in *. unfold_ranges. lia. }
  assert (Hsmall : forall k, (k <= S n)%nat -> small (t k)).
  { intros k Hk. specialize (Ht k Hk).
    change (2 ^ 52) with 4503599627370496 in *. unfold_ranges. lia. }
  unfold worker_on_message, ms_clock.
  rewrite deadline_ms by assumption.
  rewrite (busy_loop_runs (fun k => Z2num (t k)) _ n fuel 1%nat).
  - reflexivity.
  - intros j Hj. rewrite jlt_Z2num by (try apply Hsmall; assumption || lia).
    apply Z.ltb_lt, Hbefore. lia.
  - rewrite jlt_Z2num by (try apply Hsmall; assumption || lia).
    apply Z.ltb_ge. exact Hat.
  - exact Hfuel.
Qed.

End WorkerMsClock.

(** * Whole campaigns *)

Lemma exits_fields ws st :
  created (exits ws st) = created st /\
  terminated (exits ws st) = terminated st /\
  posted (exits ws st) = posted st /\
  lastCpuSnapshot (exits ws st) = lastCpuSnapshot st.
Proof.
  unfold exits. revert st; induction ws as [|w ws IH]; intros st; cbn [fold_left].
  - repeat split.
  - destruct (IH (on_worker_exit w st)) as (H1 & H2 & H3 & H4).
    destruct (exit_fields w st) as (_ & K2 & K3 & K4 & K5 & _).
    rewrite H1, H2, H3, H4. repeat split; assumption.
Qed.

Lemma dones_terminate ws st :
  dones ws st = fold_left (fun s w => terminate w s) ws st.
Proof.
  unfold dones. revert st; induction ws as [|w ws IH]; intros st; [reflexivity|].
  cbn [fold_left]. rewrite IH. reflexivity.
Qed.

(** X12. A campaign that runs to its end: after [stressCPU], the [done]
    message of each of its workers makes the server terminate that worker
    and leaves the handle set as it is; after their [exit] events, in any
    order, the handle set is empty, the flag is down, and [terminate()] was
    called exactly on the earlier workers and on the campaign's own. *)
Theorem natural_completion numCPUs durationMs order st :
  (0 < numCPUs)%nat ->
  (forall w, In w (seq (created st) numCPUs) -> In w order) ->
  let ws := seq (created st) numCPUs in
  let st1 := stressCPU numCPUs durationMs st in
  let st2 := dones ws st1 in
  let st3 := exits order st2 in
  stressWorkers st2 = ws /\
  stressWorkers st3 = [] /\
  isStressing st3 = false /\
  terminated st3 = terminated st ++ stressWorkers st ++ ws /\
  created st3 = (created st + numCPUs)%nat.
Proof.
  intros Hn Hall ws st1 st2 st3.
  destruct (stressCPU_fields numCPUs durationMs st)
    as (H1 & _ & _ & H4 & _ & H6 & _). fold st1 in H1, H4, H6.
  destruct (fold_terminate_fields ws st1) as (K1 & _ & _ & K4 & _ & K6 & _).
  rewrite <- dones_terminate in K1, K4, K6. fold st2 in K1, K4, K6.
  destruct (exits_fields order st2) as (L1 & L2 & _).
  fold st3 in L1, L2.
  assert (Hws : stressWorkers st2 = ws) by (rewrite K1; exact H1).
  assert (Hne : order <> []).
  { intros ->. destruct numCPUs; [lia|]. apply (Hall (created st)). left. reflexivity. }
  assert (E1 : stressWorkers (exits order st2) = []).
  { apply exits_empty. rewrite Hws. exact Hall. }
  assert (E2 := exits_lower_flag order st2 Hne E1).
  split; [exact Hws|]. split; [exact E1|]. split; [exact E2|]. split.
  - rewrite L2, K6, H6, app_assoc. reflexivity.
  - rewrite L1, K4, H4. reflexivity.
Qed.

Section RestartAndFlag.

Variable s2n : string -> num.
Variable o2n : jsval -> num.
Variable fx : num -> string.

(** X18. [GET /metrics] never reports [isStressing: true], whatever
    requests and worker events came before. *)
Theorem metrics_never_reports_stressing boot st curr load r :
  reachable s2n o2n fx boot st ->
  snd (get_metrics fx curr load st) = Some r ->
  r_isStressing r = false.
Proof.
  intros Hr. unfold get_metrics.
  destruct (calcCpuUsagePercent (lastCpuSnapshot st) curr) as [us|];
    [|discriminate].
  intros [= <-]. cbn [r_isStressing set_lastCpuSnapshot isStressing].
  exact (reachable_flag_false s2n o2n fx boot st Hr).
Qed.

(** X19. Two [POST /stress] in a row, from any state a run can be in, are
    both answered [success: true]: the second calls [terminate()] on the
    workers of the first and leaves only its own in the handle set. *)
Theorem second_start_restarts boot st n1 body1 n2 body2 :
  reachable s2n o2n fx boot st ->
  let st1 := fst (post_stress s2n o2n n1 body1 st) in
  let st2 := fst (post_stress s2n o2n n2 body2 st1) in
  success (snd (post_stress s2n o2n n1 body1 st)) = true /\
  success (snd (post_stress s2n o2n n2 body2 st1)) = true /\
  stressWorkers st1 = seq (created st) n1 /\
  stressWorkers st2 = seq (created st + n1) n2 /\
  terminated st2 = terminated st ++ stressWorkers st ++ seq (created st) n1.
Proof.
  intros Hr st1 st2.
  assert (Hf := reachable_flag_false s2n o2n fx boot st Hr).
  assert (Hr1 : reachable s2n o2n fx boot st1).
  { apply reach_step with (st := st); [exact Hr|]. apply step_stress. }
  assert (Hf1 := reachable_flag_false s2n o2n fx boot st1 Hr1).
  unfold st2. unfold post_stress in *. fold (request_duration s2n o2n) in *.
  rewrite Hf1. unfold st1 in *. rewrite Hf in *. cbn [fst snd success] in *.
  destruct (stressCPU_fields n1 (request_duration s2n o2n body1) st)
    as (H1 & _ & _ & H4 & _ & H6 & _).
  destruct (stressCPU_fields n2 (request_duration s2n o2n body2)
              (stressCPU n1 (request_duration s2n o2n body1) st))
    as (K1 & _ & _ & _ & _ & K6 & _).
  cbv zeta in *.
  split; [reflexivity|]. split; [reflexivity|]. split; [exact H1|]. split.
  - rewrite K1, H4. reflexivity.
  - rewrite K6, H6, H1, app_assoc. reflexivity.
Qed.

End RestartAndFlag.

(** * The further properties at concrete inputs *)

Lemma unchanged_counters_report_zero_witness :
  calcCpuUsagePercent (os_cpus raw_before) (os_cpus raw_before)
  = Some [num_0; num_0].
Proof.
  exact (unchanged_counters_report_zero raw_before raw_before_ok).
Defined.

Lemma saturated_and_idle_cores_witness :
  core_usage (js_times (counters 100 0 50 850 0))
             (js_times (counters 600 0 150 850 0)) = num_100 /\
  core_usage (js_times (counters 100 0 50 850 0))
             (js_times (counters 100 0 50 1850 0)) = num_0.
Proof.
  split.
  - apply (saturated_and_idle_cores (counters 100 0 50 850 0)
             (counters 600 0 150 850 0)).
    + unfold_ranges; cbn; lia.
    + unfold_ranges; cbn; lia.
    + reflexivity.
    + reflexivity.
  - apply (saturated_and_idle_cores (counters 100 0 50 850 0)
             (counters 100 0 50 1850 0)).
    + unfold_ranges; cbn; lia.
    + unfold_ranges; cbn; lia.
    + reflexivity.
    + reflexivity.
Defined.

Lemma displayed_usage_is_whole_percent_witness :
  snd (get_metrics fixed_none (os_cpus raw_after) []
         (init (os_cpus raw_before))) = Some two_core_response /\
  exists k, 0 <= k <= 100 /\ Z2num 60 = Z2num k.
Proof.
  split; [reflexivity|].
  apply (displayed_usage_is_whole_percent fixed_none raw_before raw_after []
           (init (os_cpus raw_before)) two_core_response
           raw_before_ok raw_after_ok eq_refl eq_refl 0%nat (Z2num 60)).
  left. reflexivity.
Defined.

Lemma reachable_after_start :
  reachable str_nan obj_nan fixed_none []
    (fst (post_stress str_nan obj_nan 2 (JObj []) (init []))).
Proof.
  apply reach_step with (st := init []); [apply reach_init|apply step_stress].
Defined.

Lemma reachable_handles_ok_witness :
  handles_ok (fst (post_stress str_nan obj_nan 2 (JObj []) (init []))).
Proof.
  exact (reachable_handles_ok str_nan obj_nan fixed_none [] _ reachable_after_start).
Defined.

Lemma reachable_one_message_per_worker_witness :
  map fst (posted (fst (post_stress str_nan obj_nan 2 (JObj []) (init []))))
  = [0%nat; 1%nat].
Proof.
  exact (reachable_one_message_per_worker str_nan obj_nan fixed_none [] _
           reachable_after_start).
Defined.

Lemma reachable_no_leak_witness :
  let st := fst (post_stress str_nan obj_nan 2 (JObj []) (init [])) in
  In 1%nat (stressWorkers st) \/ In 1%nat (terminated st) \/ In 1%nat (exited st).
Proof.
  apply (reachable_no_leak str_nan obj_nan fixed_none [] _ reachable_after_start).
  cbn. lia.
Defined.

Lemma all_exits_reach_idle_witness :
  isStressing flagged = true /\
  stressWorkers (exits [1%nat; 0%nat] flagged) = [] /\
  isStressing (exits [1%nat; 0%nat] flagged) = false.
Proof.
  split; [reflexivity|].
  apply (all_exits_reach_idle [1%nat; 0%nat] flagged).
  - discriminate.
  - intros w [<-|[<-|[]]]; cbn; auto.
Defined.

Lemma late_exit_spares_new_workers_witness :
  stressWorkers (on_worker_exit 0%nat (stressCPU 3 num_60000 flagged))
  = [2%nat; 3%nat; 4%nat].
Proof.
  apply (late_exit_spares_new_workers 0%nat 3 num_60000 flagged). cbn. lia.
Defined.

Lemma natural_completion_witness :
  stressWorkers
    (exits [1%nat; 0%nat]
       (dones [0%nat; 1%nat] (stressCPU 2 num_60000 (init [])))) = [] /\
  terminated
    (exits [1%nat; 0%nat]
       (dones [0%nat; 1%nat] (stressCPU 2 num_60000 (init []))))
  = [0%nat; 1%nat].
Proof.
  destruct (natural_completion 2 num_60000 [1%nat; 0%nat] (init []))
    as (_ & H2 & _ & H4 & _).
  - lia.
  - intros w [<-|[<-|[]]]; cbn; auto.
  - split; [exact H2|exact H4].
Defined.

Lemma sampler_stays_stuck_witness :
  sample_all fixed_none [os_cpus raw_before; os_cpus raw_after] [] (init [])
  = (init [], [None; None]).
Proof.
  apply (sampler_stays_stuck fixed_none
           [os_cpus raw_before; os_cpus raw_after] [] (init [])).
  repeat constructor.
Defined.

Lemma metrics_response_shape_witness :
  totalCPUs two_core_response = 2%nat /\
  map fst (cpus two_core_response) = [0%nat; 1%nat].
Proof.
  destruct (metrics_response_shape fixed_none (os_cpus raw_after) []
              (init (os_cpus raw_before)) two_core_response eq_refl)
    as (H1 & H2 & _).
  split; [exact H1|exact H2].
Defined.

Lemma infinite_duration_never_done_witness :
  worker_on_message str_nan obj_nan 5 (fun _ => Z2num 1000)
    (JNum (S754_infinity false)) = None.
Proof.
  apply (infinite_duration_never_done str_nan obj_nan (fun _ => Z2num 1000) 5).
  intros k. reflexivity.
Defined.

Lemma worker_on_ms_clock_witness :
  worker_on_message str_nan obj_nan 1
    (ms_clock (fun k => 1000 + 2 * Z.of_nat k)) (JNum (Z2num (-5)))
  = Some [PostDone].
Proof.
  apply (worker_on_ms_clock str_nan obj_nan
           (fun k => 1000 + 2 * Z.of_nat k) (-5) 0 1).
  - intros k Hk. change (2 ^ 52) with 4503599627370496. lia.
  - reflexivity.
  - intros j Hj. lia.
  - cbn. lia.
  - lia.
Defined.

Lemma reachable_after_sampled_start :
  reachable str_nan obj_nan fixed_none (os_cpus raw_before)
    (fst (post_stress str_nan obj_nan 2
            (JObj [("duration"%string, JNum (Z2num 5000))])
            (init (os_cpus raw_before)))).
Proof.
  apply reach_step with (st := init (os_cpus raw_before));
    [apply reach_init|apply step_stress].
Defined.

Lemma metrics_never_reports_stressing_witness :
  let running :=
    fst (post_stress str_nan obj_nan 2
           (JObj [("duration"%string, JNum (Z2num 5000))])
           (init (os_cpus raw_before))) in
  stressWorkers running = [0%nat; 1%nat] /\
  posted running = [(0%nat, Z2num 5000); (1%nat, Z2num 5000)] /\
  snd (get_metrics fixed_none (os_cpus raw_after) [] running)
  = Some two_core_response /\
  r_isStressing two_core_response = false.
Proof.
  split; [reflexivity|]. split; [reflexivity|]. split; [reflexivity|].
  apply (metrics_never_reports_stressing str_nan obj_nan fixed_none
           (os_cpus raw_before) _ (os_cpus raw_after) [] two_core_response
           reachable_after_sampled_start).
  reflexivity.
Defined.

Lemma second_start_restarts_witness :
  let st1 := fst (post_stress str_nan obj_nan 2 (JObj []) (init [])) in
  let st2 := fst (post_stress str_nan obj_nan 2 (JObj []) st1) in
  stressWorkers st2 = [2%nat; 3%nat] /\ terminated st2 = [0%nat; 1%nat].
Proof.
  destruct (second_start_restarts str_nan obj_nan fixed_none [] (init [])
              2 (JObj []) 2 (JObj []) (reach_init _ _ _ _))
    as (_ & _ & _ & H4 & H5).
  split; [exact H4|exact H5].
Defined.
